(** * DisasterRelief: the disaster event and fund lifecycle ledger

    A shallow embedding of the [DisasterRelief] contract of
    [smart-contracts/BlockAidToken.sol] (Solidity ^0.8.0), followed by the
    properties of the ledger: fund-pool accounting, fingerprint uniqueness,
    severity thresholds, verification, fund creation, input validation,
    atomicity of rejected calls, donations and access control.

    Conventions of the embedding:
    - [uint256] and [address] values are binary naturals ([N]); Solidity 0.8
      arithmetic is checked, so [++] and [+] revert with [Panic(0x11)] when
      the result does not fit in 256 bits;
    - a [mapping] is a finite map read with the type's zero value as default;
    - a contract function is a computation in a state-and-failure monad; a
      failing [require] aborts the call, and the transaction wrapper
      [execute] restores the state the call started from;
    - [emit] appends to the transaction log kept beside the storage;
    - of the imported OpenZeppelin bases, Ownable contributes the owner, its
      [onlyOwner] modifier and the two ownership functions, and
      ReentrancyGuard the [nonReentrant] modifier with its status flag.

    Line numbers refer to [smart-contracts/BlockAidToken.sol]. *)

From Stdlib Require Import NArith Lia List String.
From stdpp Require Import gmap strings list fin_maps.

Local Open Scope string_scope.
Local Open Scope N_scope.

(** ** Value types *)

Abbreviation address := N (only parsing).
Abbreviation uint256 := N (only parsing).

Definition MAX_UINT256 : N := 2 ^ 256 - 1.
Definition MAX_ADDRESS : N := 2 ^ 160 - 1.

Inductive DisasterType := FLOOD | EARTHQUAKE | CYCLONE | LANDSLIDE.
Inductive SeverityLevel := LOW | MEDIUM | HIGH.
Inductive FundStatus := PENDING | APPROVED | DISTRIBUTED | REJECTED.

Definition FundStatus_eqb (a b : FundStatus) : bool :=
  match a, b with
  | PENDING, PENDING | APPROVED, APPROVED
  | DISTRIBUTED, DISTRIBUTED | REJECTED, REJECTED => true
  | _, _ => false
  end.


(** ** Structs

    Field names carry a prefix because [eventId], [timestamp] and [status]
    occur in more than one struct. *)

Record DisasterEvent := mkDisasterEvent {
  ev_eventId : uint256;
  ev_disasterType : DisasterType;
  ev_location : string;
  ev_timestamp : uint256;
  ev_imageHash : string;
  ev_severityScore : uint256;
  ev_severityLevel : SeverityLevel;
  ev_reportedBy : address;
  ev_isVerified : bool;
  ev_estimatedAffected : uint256;
  ev_infrastructureDamage : uint256;
  ev_impactArea : uint256
}.

Record FundTransaction := mkFundTransaction {
  tx_transactionId : uint256;
  tx_eventId : uint256;
  tx_donor : address;
  tx_amount : uint256;
  tx_timestamp : uint256;
  tx_status : FundStatus;
  tx_purpose : string;
  tx_isBlockchainVerified : bool
}.

Record DisasterFund := mkDisasterFund {
  fd_fundId : uint256;
  fd_eventId : uint256;
  fd_totalAmount : uint256;
  fd_distributedAmount : uint256;
  fd_createdAt : uint256;
  fd_approvedBy : address;
  fd_status : FundStatus
}.

(** Zero values, read from a mapping slot that was never written. *)
Definition zeroEvent : DisasterEvent :=
  mkDisasterEvent 0 FLOOD EmptyString 0 EmptyString 0 LOW 0 false 0 0 0.
Definition zeroTransaction : FundTransaction :=
  mkFundTransaction 0 0 0 0 0 PENDING EmptyString false.
Definition zeroFund : DisasterFund :=
  mkDisasterFund 0 0 0 0 0 0 PENDING.

Definition ev_set_isVerified (b : bool) (e : DisasterEvent) : DisasterEvent :=
  mkDisasterEvent (ev_eventId e) (ev_disasterType e) (ev_location e)
    (ev_timestamp e) (ev_imageHash e) (ev_severityScore e) (ev_severityLevel e)
    (ev_reportedBy e) b (ev_estimatedAffected e) (ev_infrastructureDamage e)
    (ev_impactArea e).

Definition fd_set_distributedAmount (v : uint256) (f : DisasterFund) : DisasterFund :=
  mkDisasterFund (fd_fundId f) (fd_eventId f) (fd_totalAmount f) v
    (fd_createdAt f) (fd_approvedBy f) (fd_status f).

Definition fd_set_status (st : FundStatus) (f : DisasterFund) : DisasterFund :=
  mkDisasterFund (fd_fundId f) (fd_eventId f) (fd_totalAmount f)
    (fd_distributedAmount f) (fd_createdAt f) (fd_approvedBy f) st.

(** ** Log entries (the contract's [event] declarations) *)

Inductive Log :=
| DisasterEventCreated (eventId : uint256) (disasterType : DisasterType)
    (location : string) (severityScore : uint256) (reportedBy : address)
| DisasterEventVerified (eventId : uint256) (isVerified : bool)
| FundDonated (transactionId eventId : uint256) (donor : address) (amount : uint256)
| FundApproved (fundId eventId amount : uint256) (approvedBy : address)
| FundDistributed (fundId eventId amount : uint256)
| OwnershipTransferred (previousOwner newOwner : address).

(** ** Ledger state

    The contract's state variables, the two variables it inherits from the
    imported OpenZeppelin bases ([_owner] of Ownable, [_status] of
    ReentrancyGuard, where [true] stands for _ENTERED), the contract's own
    address and ether balance, and the log. *)

Record State := mkState {
  _owner : address;
  _status : bool;
  eventCounter : uint256;
  transactionCounter : uint256;
  fundCounter : uint256;
  disasterEvents : gmap N DisasterEvent;
  fundTransactions : gmap N FundTransaction;
  disasterFunds : gmap N DisasterFund;
  processedImageHashes : gmap string bool;
  authorizedOfficials : gmap N bool;
  allEventIds : list uint256;
  allTransactionIds : list uint256;
  self : address;
  balance : N;
  emitted : list Log
}.

Definition set_owner (v : address) (s : State) : State :=
  mkState v (_status s) (eventCounter s) (transactionCounter s) (fundCounter s)
    (disasterEvents s) (fundTransactions s) (disasterFunds s)
    (processedImageHashes s) (authorizedOfficials s) (allEventIds s)
    (allTransactionIds s) (self s) (balance s) (emitted s).

Definition set_status (v : bool) (s : State) : State :=
  mkState (_owner s) v (eventCounter s) (transactionCounter s) (fundCounter s)
    (disasterEvents s) (fundTransactions s) (disasterFunds s)
    (processedImageHashes s) (authorizedOfficials s) (allEventIds s)
    (allTransactionIds s) (self s) (balance s) (emitted s).

Definition set_eventCounter (v : uint256) (s : State) : State :=
  mkState (_owner s) (_status s) v (transactionCounter s) (fundCounter s)
    (disasterEvents s) (fundTransactions s) (disasterFunds s)
    (processedImageHashes s) (authorizedOfficials s) (allEventIds s)
    (allTransactionIds s) (self s) (balance s) (emitted s).

Definition set_transactionCounter (v : uint256) (s : State) : State :=
  mkState (_owner s) (_status s) (eventCounter s) v (fundCounter s)
    (disasterEvents s) (fundTransactions s) (disasterFunds s)
    (processedImageHashes s) (authorizedOfficials s) (allEventIds s)
    (allTransactionIds s) (self s) (balance s) (emitted s).

Definition set_fundCounter (v : uint256) (s : State) : State :=
  mkState (_owner s) (_status s) (eventCounter s) (transactionCounter s) v
    (disasterEvents s) (fundTransactions s) (disasterFunds s)
    (processedImageHashes s) (authorizedOfficials s) (allEventIds s)
    (allTransactionIds s) (self s) (balance s) (emitted s).

Definition set_disasterEvents (v : gmap N DisasterEvent) (s : State) : State :=
  mkState (_owner s) (_status s) (eventCounter s) (transactionCounter s)
    (fundCounter s) v (fundTransactions s) (disasterFunds s)
    (processedImageHashes s) (authorizedOfficials s) (allEventIds s)
    (allTransactionIds s) (self s) (balance s) (emitted s).

Definition set_fundTransactions (v : gmap N FundTransaction) (s : State) : State :=
  mkState (_owner s) (_status s) (eventCounter s) (transactionCounter s)
    (fundCounter s) (disasterEvents s) v (disasterFunds s)
    (processedImageHashes s) (authorizedOfficials s) (allEventIds s)
    (allTransactionIds s) (self s) (balance s) (emitted s).

Definition set_disasterFunds (v : gmap N DisasterFund) (s : State) : State :=
  mkState (_owner s) (_status s) (eventCounter s) (transactionCounter s)
    (fundCounter s) (disasterEvents s) (fundTransactions s) v
    (processedImageHashes s) (authorizedOfficials s) (allEventIds s)
    (allTransactionIds s) (self s) (balance s) (emitted s).

Definition set_processedImageHashes (v : gmap string bool) (s : State) : State :=
  mkState (_owner s) (_status s) (eventCounter s) (transactionCounter s)
    (fundCounter s) (disasterEvents s) (fundTransactions s) (disasterFunds s)
    v (authorizedOfficials s) (allEventIds s)
    (allTransactionIds s) (self s) (balance s) (emitted s).

Definition set_authorizedOfficials (v : gmap N bool) (s : State) : State :=
  mkState (_owner s) (_status s) (eventCounter s) (transactionCounter s)
    (fundCounter s) (disasterEvents s) (fundTransactions s) (disasterFunds s)
    (processedImageHashes s) v (allEventIds s)
    (allTransactionIds s) (self s) (balance s) (emitted s).

Definition set_allEventIds (v : list uint256) (s : State) : State :=
  mkState (_owner s) (_status s) (eventCounter s) (transactionCounter s)
    (fundCounter s) (disasterEvents s) (fundTransactions s) (disasterFunds s)
    (processedImageHashes s) (authorizedOfficials s) v
    (allTransactionIds s) (self s) (balance s) (emitted s).

Definition set_allTransactionIds (v : list uint256) (s : State) : State :=
  mkState (_owner s) (_status s) (eventCounter s) (transactionCounter s)
    (fundCounter s) (disasterEvents s) (fundTransactions s) (disasterFunds s)
    (processedImageHashes s) (authorizedOfficials s) (allEventIds s)
    v (self s) (balance s) (emitted s).

Definition set_balance (v : N) (s : State) : State :=
  mkState (_owner s) (_status s) (eventCounter s) (transactionCounter s)
    (fundCounter s) (disasterEvents s) (fundTransactions s) (disasterFunds s)
    (processedImageHashes s) (authorizedOfficials s) (allEventIds s)
    (allTransactionIds s) (self s) v (emitted s).

Definition set_emitted (v : list Log) (s : State) : State :=
  mkState (_owner s) (_status s) (eventCounter s) (transactionCounter s)
    (fundCounter s) (disasterEvents s) (fundTransactions s) (disasterFunds s)
    (processedImageHashes s) (authorizedOfficials s) (allEventIds s)
    (allTransactionIds s) (self s) (balance s) v.

(** Mapping reads: [m[k]] is the stored value, or the zero value. *)
Definition eventAt (s : State) (id : uint256) : DisasterEvent :=
  default zeroEvent (disasterEvents s !! id).
Definition transactionAt (s : State) (id : uint256) : FundTransaction :=
  default zeroTransaction (fundTransactions s !! id).
Definition fundAt (s : State) (id : uint256) : DisasterFund :=
  default zeroFund (disasterFunds s !! id).
Definition isProcessed (s : State) (h : string) : bool :=
  default false (processedImageHashes s !! h).
Definition isOfficial (s : State) (a : address) : bool :=
  default false (authorizedOfficials s !! a).

(** ** Failures

    One constructor per [require] message of the contract and of the two
    imported bases, the arithmetic panic of checked arithmetic, and the
    failure of an ether transfer, which carries the revert data of the
    failed call: [transfer] forwards it as the reason of the caller's own
    failure. *)

Inductive Reason :=
| NotAuthorized
| EventDoesNotExist
| FundDoesNotExist
| InvalidSeverityScore
| ImageAlreadyProcessed
| AlreadyVerified
| DonationMustBePositive
| EventNotVerified
| AmountMustBePositive
| FundNotApproved
| InsufficientFundBalance
| InsufficientContractBalance
| CallerIsNotTheOwner
| NewOwnerIsZeroAddress
| ReentrantCall
| PanicOverflow
| TransferFailed (data : string).

Definition message (r : Reason) : string :=
  match r with
  | NotAuthorized => "Not authorized"
  | EventDoesNotExist => "Event does not exist"
  | FundDoesNotExist => "Fund does not exist"
  | InvalidSeverityScore => "Invalid severity score"
  | ImageAlreadyProcessed => "Image already processed"
  | AlreadyVerified => "Already verified"
  | DonationMustBePositive => "Donation must be greater than 0"
  | EventNotVerified => "Event not verified"
  | AmountMustBePositive => "Amount must be greater than 0"
  | FundNotApproved => "Fund not approved"
  | InsufficientFundBalance => "Insufficient fund balance"
  | InsufficientContractBalance => "Insufficient contract balance"
  | CallerIsNotTheOwner => "Ownable: caller is not the owner"
  | NewOwnerIsZeroAddress => "Ownable: new owner is the zero address"
  | ReentrantCall => "ReentrancyGuard: reentrant call"
  | PanicOverflow => "Panic(0x11)"
  | TransferFailed data => data
  end.

(** The error taxonomy of the ledger's specification, and the error each
    failure of the contract is reported as. Failures the taxonomy has no
    name for are not classified. *)
Inductive ErrorKind :=
| ValidationError
| DuplicateError
| NotFoundError
| AuthorizationError
| AlreadyVerifiedError
| InsufficientFundsError
| InsufficientBalanceError.

Definition errorKind (r : Reason) : option ErrorKind :=
  match r with
  | NotAuthorized | CallerIsNotTheOwner => Some AuthorizationError
  | EventDoesNotExist | FundDoesNotExist => Some NotFoundError
  | InvalidSeverityScore | DonationMustBePositive
  | EventNotVerified | AmountMustBePositive => Some ValidationError
  | ImageAlreadyProcessed => Some DuplicateError
  | AlreadyVerified => Some AlreadyVerifiedError
  | InsufficientFundBalance => Some InsufficientFundsError
  | InsufficientContractBalance => Some InsufficientBalanceError
  | FundNotApproved | NewOwnerIsZeroAddress | ReentrantCall
  | PanicOverflow | TransferFailed _ => None
  end.

(** ** Calls as computations *)

(** What a call sees of its transaction: the caller, the block time,
    whether an account accepts a plain ether transfer (an externally owned
    account does; a contract may refuse), and the revert data a refusing
    account answers with, read as the message it decodes to. *)
Record Env := mkEnv {
  msg_sender : address;
  block_timestamp : uint256;
  canReceive : address -> bool;
  revertData : address -> string
}.

(** A call either returns a value in a new state, or fails with a reason;
    a failure records the state the call had reached when it failed. *)
Inductive Result (A : Type) :=
| Ok (a : A) (s : State)
| Fail (r : Reason) (s : State).
Arguments Ok {A} a s.
Arguments Fail {A} r s.

Definition M (A : Type) : Type := State -> Result A.

Definition ret {A} (a : A) : M A := fun s => Ok a s.

Definition bind {A B} (m : M A) (k : A -> M B) : M B :=
  fun s => match m s with
           | Ok a s' => k a s'
           | Fail r s' => Fail r s'
           end.

Notation "x <- m ;; k" := (bind m (fun x => k))
  (at level 100, m at next level, right associativity).
Notation "m ;; k" := (bind m (fun _ => k))
  (at level 100, right associativity).

Definition require (c : bool) (r : Reason) : M unit :=
  fun s => if c then Ok tt s else Fail r s.

Definition read {A} (f : State -> A) : M A := fun s => Ok (f s) s.

Definition write (f : State -> State) : M unit := fun s => Ok tt (f s).

(** Checked addition of Solidity 0.8. *)
Definition checked_add (a b : uint256) : M uint256 :=
  fun s => if a + b <=? MAX_UINT256 then Ok (a + b) s else Fail PanicOverflow s.

Definition emit (l : Log) : M unit :=
  write (fun s => set_emitted (emitted s ++ [l]) s).

(** Ether sent along with a call to a [payable] function is credited to the
    contract before the body runs. *)
Definition payable (value : uint256) : M unit :=
  write (fun s => set_balance (balance s + value) s).

(** [recipient.transfer(amount)]: fails with no data when the balance is
    too small, and with the recipient's revert data when the recipient
    refuses; a transfer to the contract itself reaches its empty
    [receive()] and leaves the balance as it was. *)
Definition transfer (env : Env) (recipient : address) (amount : uint256) : M unit :=
  bal <- read balance ;;
  me <- read self ;;
  require (amount <=? bal) (TransferFailed EmptyString) ;;
  require (canReceive env recipient) (TransferFailed (revertData env recipient)) ;;
  if recipient =? me then ret tt else write (set_balance (bal - amount)).

(** ** Modifiers (lines 124-140, and the two of the imported bases) *)

Definition onlyOwner (env : Env) : M unit :=
  o <- read _owner ;;
  require (o =? msg_sender env) CallerIsNotTheOwner.

Definition isAuthorized (s : State) (a : address) : bool :=
  (a =? _owner s) || isOfficial s a.

Definition onlyAuthorized (env : Env) : M unit :=
  ok <- read (fun s => isAuthorized s (msg_sender env)) ;;
  require ok NotAuthorized.

Definition eventExists (_eventId : uint256) : M unit :=
  c <- read eventCounter ;;
  require ((0 <? _eventId) && (_eventId <=? c)) EventDoesNotExist.

Definition fundExists (_fundId : uint256) : M unit :=
  c <- read fundCounter ;;
  require ((0 <? _fundId) && (_fundId <=? c)) FundDoesNotExist.

Definition nonReentrant {A} (body : M A) : M A :=
  entered <- read _status ;;
  require (negb entered) ReentrantCall ;;
  write (set_status true) ;;
  a <- body ;;
  write (set_status false) ;;
  ret a.

(** ** View function (lines 293-297) *)

Definition getSeverityLevel (_score : uint256) : SeverityLevel :=
  if _score <=? 40 then LOW
  else if _score <=? 70 then MEDIUM
  else HIGH.

(** ** Admin functions (lines 148-154) *)

Definition addAuthorizedOfficial (env : Env) (_official : address) : M unit :=
  onlyOwner env ;;
  write (fun s => set_authorizedOfficials (<[_official := true]> (authorizedOfficials s)) s).

Definition removeAuthorizedOfficial (env : Env) (_official : address) : M unit :=
  onlyOwner env ;;
  write (fun s => set_authorizedOfficials (<[_official := false]> (authorizedOfficials s)) s).

(** Inherited from the imported Ownable base. *)
Definition transferOwnership (env : Env) (newOwner : address) : M unit :=
  onlyOwner env ;;
  require (negb (newOwner =? 0)) NewOwnerIsZeroAddress ;;
  old <- read _owner ;;
  write (set_owner newOwner) ;;
  emit (OwnershipTransferred old newOwner).

Definition renounceOwnership (env : Env) : M unit :=
  onlyOwner env ;;
  old <- read _owner ;;
  write (set_owner 0) ;;
  emit (OwnershipTransferred old 0).

(** ** Core functions *)

(** Lines 160-198. *)
Definition createDisasterEvent (env : Env) (_type : DisasterType)
    (_location _imageHash : string)
    (_severityScore _affectedPopulation _infrastructureDamage _impactArea : uint256)
    : M uint256 :=
  onlyAuthorized env ;;
  require ((0 <=? _severityScore) && (_severityScore <=? 100)) InvalidSeverityScore ;;
  processed <- read (fun s => isProcessed s _imageHash) ;;
  require (negb processed) ImageAlreadyProcessed ;;
  c <- read eventCounter ;;
  c' <- checked_add c 1 ;;
  write (set_eventCounter c') ;;
  eventId <- read eventCounter ;;
  let level := getSeverityLevel _severityScore in
  write (fun s => set_disasterEvents
    (<[eventId := mkDisasterEvent eventId _type _location (block_timestamp env)
         _imageHash _severityScore level (msg_sender env) false
         _affectedPopulation _infrastructureDamage _impactArea]>
       (disasterEvents s)) s) ;;
  write (fun s => set_processedImageHashes
    (<[_imageHash := true]> (processedImageHashes s)) s) ;;
  write (fun s => set_allEventIds (allEventIds s ++ [eventId]) s) ;;
  emit (DisasterEventCreated eventId _type _location _severityScore (msg_sender env)) ;;
  ret eventId.

(** Lines 203-207. *)
Definition verifyDisasterEvent (env : Env) (_eventId : uint256) : M unit :=
  onlyAuthorized env ;;
  eventExists _eventId ;;
  verified <- read (fun s => ev_isVerified (eventAt s _eventId)) ;;
  require (negb verified) AlreadyVerified ;;
  write (fun s => set_disasterEvents
    (<[_eventId := ev_set_isVerified true (eventAt s _eventId)]> (disasterEvents s)) s) ;;
  emit (DisasterEventVerified _eventId true).

(** Lines 212-236; [msg_value] is the ether sent with the call. *)
Definition donateToEvent (env : Env) (msg_value : uint256)
    (_eventId : uint256) (_purpose : string) : M unit :=
  eventExists _eventId ;;
  nonReentrant (
    require (0 <? msg_value) DonationMustBePositive ;;
    verified <- read (fun s => ev_isVerified (eventAt s _eventId)) ;;
    require verified EventNotVerified ;;
    c <- read transactionCounter ;;
    c' <- checked_add c 1 ;;
    write (set_transactionCounter c') ;;
    transactionId <- read transactionCounter ;;
    write (fun s => set_fundTransactions
      (<[transactionId := mkFundTransaction transactionId _eventId (msg_sender env)
           msg_value (block_timestamp env) PENDING _purpose true]>
         (fundTransactions s)) s) ;;
    write (fun s => set_allTransactionIds (allTransactionIds s ++ [transactionId]) s) ;;
    emit (FundDonated transactionId _eventId (msg_sender env) msg_value)).

(** Lines 241-262. *)
Definition createAndApproveFund (env : Env) (_eventId _amount : uint256) : M unit :=
  onlyAuthorized env ;;
  eventExists _eventId ;;
  require (0 <? _amount) AmountMustBePositive ;;
  verified <- read (fun s => ev_isVerified (eventAt s _eventId)) ;;
  require verified EventNotVerified ;;
  c <- read fundCounter ;;
  c' <- checked_add c 1 ;;
  write (set_fundCounter c') ;;
  fundId <- read fundCounter ;;
  write (fun s => set_disasterFunds
    (<[fundId := mkDisasterFund fundId _eventId _amount 0 (block_timestamp env)
         (msg_sender env) APPROVED]> (disasterFunds s)) s) ;;
  emit (FundApproved fundId _eventId _amount (msg_sender env)).

(** An assignment through the storage reference [fund]. *)
Definition updateFund (_fundId : uint256) (f : DisasterFund -> DisasterFund) : M unit :=
  write (fun s => set_disasterFunds
    (<[_fundId := f (fundAt s _fundId)]> (disasterFunds s)) s).

(** Lines 267-290. *)
Definition distributeFund (env : Env) (_fundId : uint256)
    (_recipient : address) (_amount : uint256) : M unit :=
  onlyAuthorized env ;;
  fundExists _fundId ;;
  nonReentrant (
    fund <- read (fun s => fundAt s _fundId) ;;
    require (FundStatus_eqb (fd_status fund) APPROVED) FundNotApproved ;;
    sum <- checked_add (fd_distributedAmount fund) _amount ;;
    require (sum <=? fd_totalAmount fund) InsufficientFundBalance ;;
    bal <- read balance ;;
    require (_amount <=? bal) InsufficientContractBalance ;;
    fund <- read (fun s => fundAt s _fundId) ;;
    sum <- checked_add (fd_distributedAmount fund) _amount ;;
    updateFund _fundId (fd_set_distributedAmount sum) ;;
    fund <- read (fun s => fundAt s _fundId) ;;
    (if fd_totalAmount fund <=? fd_distributedAmount fund
     then updateFund _fundId (fd_set_status DISTRIBUTED)
     else ret tt) ;;
    transfer env _recipient _amount ;;
    fund <- read (fun s => fundAt s _fundId) ;;
    emit (FundDistributed _fundId (fd_eventId fund) _amount)).

(** [receive() external payable {}] (line 339). *)
Definition receive : M unit := ret tt.

(** ** Deployment and transactions *)

(** State after the constructors of Ownable, ReentrancyGuard and
    DisasterRelief (lines 143-145) have run for [deployer]; [me] is the
    address the contract is deployed at and [bal] the ether it holds. *)
Definition constructor (deployer me : address) (bal : N) : State :=
  mkState deployer false 0 0 0 ∅ ∅ ∅ ∅ {[deployer := true]} [] [] me bal
    [OwnershipTransferred 0 deployer].

(** The state-changing external functions with their arguments; ether can
    accompany only the two payable ones. *)
Inductive Call :=
| Call_addAuthorizedOfficial (_official : address)
| Call_removeAuthorizedOfficial (_official : address)
| Call_transferOwnership (newOwner : address)
| Call_renounceOwnership
| Call_createDisasterEvent (_type : DisasterType) (_location _imageHash : string)
    (_severityScore _affectedPopulation _infrastructureDamage _impactArea : uint256)
| Call_verifyDisasterEvent (_eventId : uint256)
| Call_donateToEvent (msg_value : uint256) (_eventId : uint256) (_purpose : string)
| Call_createAndApproveFund (_eventId _amount : uint256)
| Call_distributeFund (_fundId : uint256) (_recipient : address) (_amount : uint256)
| Call_receive (msg_value : uint256).

Definition dispatch (env : Env) (c : Call) : M unit :=
  match c with
  | Call_addAuthorizedOfficial a => addAuthorizedOfficial env a
  | Call_removeAuthorizedOfficial a => removeAuthorizedOfficial env a
  | Call_transferOwnership a => transferOwnership env a
  | Call_renounceOwnership => renounceOwnership env
  | Call_createDisasterEvent t l h sc ap inf ar =>
      createDisasterEvent env t l h sc ap inf ar ;; ret tt
  | Call_verifyDisasterEvent id => verifyDisasterEvent env id
  | Call_donateToEvent v id p => payable v ;; donateToEvent env v id p
  | Call_createAndApproveFund id a => createAndApproveFund env id a
  | Call_distributeFund id r a => distributeFund env id r a
  | Call_receive v => payable v ;; receive
  end.

Inductive Outcome :=
| Success
| Reverted (r : Reason).

(** A transaction: the call's effects are kept when it returns; when it
    fails the transaction reverts, and whatever the call had written by then
    is dropped. *)
Definition execute (env : Env) (c : Call) (s : State) : Outcome * State :=
  match dispatch env c s with
  | Ok _ s' => (Success, s')
  | Fail r _ => (Reverted r, s)
  end.

(** Arguments as the ABI delivers them: every [uint256] fits in 256 bits
    and every [address] in 160. *)
Definition wf_call (c : Call) : bool :=
  match c with
  | Call_addAuthorizedOfficial a | Call_removeAuthorizedOfficial a
  | Call_transferOwnership a => a <=? MAX_ADDRESS
  | Call_renounceOwnership => true
  | Call_createDisasterEvent _ _ _ sc ap inf ar =>
      (sc <=? MAX_UINT256) && (ap <=? MAX_UINT256) &&
      (inf <=? MAX_UINT256) && (ar <=? MAX_UINT256)
  | Call_verifyDisasterEvent id => id <=? MAX_UINT256
  | Call_donateToEvent v id _ => (v <=? MAX_UINT256) && (id <=? MAX_UINT256)
  | Call_createAndApproveFund id a => (id <=? MAX_UINT256) && (a <=? MAX_UINT256)
  | Call_distributeFund id r a =>
      (id <=? MAX_UINT256) && (r <=? MAX_ADDRESS) && (a <=? MAX_UINT256)
  | Call_receive v => v <=? MAX_UINT256
  end.

(** The states of the ledger's lifetime: the deployed state and whatever a
    sequence of transactions makes of it. *)
Inductive reachable : State -> Prop :=
| reachable_deployed deployer me bal :
    reachable (constructor deployer me bal)
| reachable_step s env c :
    reachable s -> wf_call c = true -> reachable (snd (execute env c s)).

(** Run a list of transactions, oldest first. *)
Fixpoint run (txs : list (Env * Call)) (s : State) : State :=
  match txs with
  | [] => s
  | (env, c) :: rest => run rest (snd (execute env c s))
  end.

(** ** Read accessors (lines 299-336)

    The [view] functions change nothing, so they are functions of the state
    alone: they return a value or revert with a message. *)

Inductive View (A : Type) :=
| Returns (a : A)
| Reverts (msg : string).
Arguments Returns {A} a.
Arguments Reverts {A} msg.

(** A state-reading computation run as a view. *)
Definition view {A} (m : M A) (s : State) : View A :=
  match m s with
  | Ok a _ => Returns a
  | Fail r _ => Reverts (message r)
  end.

Definition getDisasterEvent (_eventId : uint256) : State -> View DisasterEvent :=
  view (eventExists _eventId ;; read (fun s => eventAt s _eventId)).

Definition getFundTransaction (_transactionId : uint256) (s : State)
    : View FundTransaction :=
  if (0 <? _transactionId) && (_transactionId <=? transactionCounter s)
  then Returns (transactionAt s _transactionId)
  else Reverts "Invalid transaction".

Definition getDisasterFund (_fundId : uint256) : State -> View DisasterFund :=
  view (fundExists _fundId ;; read (fun s => fundAt s _fundId)).

Definition getAllEventIds (s : State) : list uint256 := allEventIds s.

Definition getAllTransactionIds (s : State) : list uint256 := allTransactionIds s.

Definition getContractBalance (s : State) : uint256 := balance s.

(** ** Readers of the log

    What an observer of the emitted notifications can add up. *)

(** The ids 1, 2, ..., n in this order. *)
Definition idsUpTo (n : N) : list N := map N.of_nat (seq 1 (N.to_nat n)).

(** The amounts of the [FundDistributed] entries of one fund. *)
Fixpoint distributedInLog (fundId : uint256) (log : list Log) : N :=
  match log with
  | [] => 0
  | FundDistributed f _ a :: rest =>
      (if f =? fundId then a else 0) + distributedInLog fundId rest
  | _ :: rest => distributedInLog fundId rest
  end.

(** The amounts of all [FundDistributed] entries. *)
Fixpoint paidOutInLog (log : list Log) : N :=
  match log with
  | [] => 0
  | FundDistributed _ _ a :: rest => a + paidOutInLog rest
  | _ :: rest => paidOutInLog rest
  end.

(** The amounts of all [FundDonated] entries. *)
Fixpoint donatedInLog (log : list Log) : N :=
  match log with
  | [] => 0
  | FundDonated _ _ _ a :: rest => a + donatedInLog rest
  | _ :: rest => donatedInLog rest
  end.

(** ** Kinds of calls

    The functions that carry [onlyAuthorized], the two that carry
    [onlyOwner] in this contract, and the calls that create a record. *)

Definition requiresAuthorization (c : Call) : bool :=
  match c with
  | Call_createDisasterEvent _ _ _ _ _ _ _ | Call_verifyDisasterEvent _
  | Call_createAndApproveFund _ _ | Call_distributeFund _ _ _ => true
  | _ => false
  end.

Definition createsEvent (c : Call) : bool :=
  match c with Call_createDisasterEvent _ _ _ _ _ _ _ => true | _ => false end.

Definition createsFund (c : Call) : bool :=
  match c with Call_createAndApproveFund _ _ => true | _ => false end.

Definition createsTransaction (c : Call) : bool :=
  match c with Call_donateToEvent _ _ _ => true | _ => false end.

Definition succeeded (o : Outcome) : bool :=
  match o with Success => true | Reverted _ => false end.

(** ** Invariants and frames

    Properties of the stored records that hold in every reachable state,
    and the relation between two states with the same storage; the
    properties are proved below. *)

(** A stored fund pool: a positive total that fits in 256 bits, never more
    distributed than the total, APPROVED while something is left and
    DISTRIBUTED once nothing is. *)
Definition fund_ok (f : DisasterFund) : Prop :=
  0 < fd_totalAmount f <= MAX_UINT256 /\
  fd_distributedAmount f <= fd_totalAmount f /\
  ((fd_status f = APPROVED /\ fd_distributedAmount f < fd_totalAmount f) \/
   (fd_status f = DISTRIBUTED /\ fd_distributedAmount f = fd_totalAmount f)).

(** Between transactions the reentrancy guard is open and every fund id up
    to the counter holds a well-formed pool. *)
Definition funds_ok (s : State) : Prop :=
  _status s = false /\
  forall id, 0 < id <= fundCounter s ->
    exists f, disasterFunds s !! id = Some f /\ fund_ok f.

(** Every event id up to the counter holds an event whose fingerprint is
    marked processed and whose level is derived from its score; no two of
    them share a fingerprint. *)
Definition events_ok (s : State) : Prop :=
  (forall id, 0 < id <= eventCounter s ->
     exists e, disasterEvents s !! id = Some e /\
       ev_eventId e = id /\
       processedImageHashes s !! ev_imageHash e = Some true /\
       ev_severityScore e <= 100 /\
       ev_severityLevel e = getSeverityLevel (ev_severityScore e)) /\
  (forall id1 id2, 0 < id1 <= eventCounter s -> 0 < id2 <= eventCounter s ->
     ev_imageHash (eventAt s id1) = ev_imageHash (eventAt s id2) -> id1 = id2).

(** The storage and the log are as they were: nothing but the guard flag
    and the balance (credited on entry of a payable call) may differ. *)
Definition storage_unwritten (s s' : State) : Prop :=
  _owner s' = _owner s /\
  eventCounter s' = eventCounter s /\
  transactionCounter s' = transactionCounter s /\
  fundCounter s' = fundCounter s /\
  disasterEvents s' = disasterEvents s /\
  fundTransactions s' = fundTransactions s /\
  disasterFunds s' = disasterFunds s /\
  processedImageHashes s' = processedImageHashes s /\
  authorizedOfficials s' = authorizedOfficials s /\
  allEventIds s' = allEventIds s /\
  allTransactionIds s' = allTransactionIds s /\
  emitted s' = emitted s.

(** No record is stored outside the ids handed out so far. *)
Definition unset_ok (s : State) : Prop :=
  (forall id, ~ (0 < id <= eventCounter s) -> disasterEvents s !! id = None) /\
  (forall id, ~ (0 < id <= fundCounter s) -> disasterFunds s !! id = None) /\
  (forall id, ~ (0 < id <= transactionCounter s) -> fundTransactions s !! id = None).

(** Every fund pool and every donation is stored under its own id and
    refers to an existing, verified event; a donation has a positive amount,
    status PENDING and the verified flag set. *)
Definition references_ok (s : State) : Prop :=
  (forall id, 0 < id <= fundCounter s ->
     fd_fundId (fundAt s id) = id /\
     0 < fd_eventId (fundAt s id) <= eventCounter s /\
     ev_isVerified (eventAt s (fd_eventId (fundAt s id))) = true) /\
  (forall id, 0 < id <= transactionCounter s ->
     tx_transactionId (transactionAt s id) = id /\
     0 < tx_eventId (transactionAt s id) <= eventCounter s /\
     ev_isVerified (eventAt s (tx_eventId (transactionAt s id))) = true /\
     0 < tx_amount (transactionAt s id) /\
     tx_status (transactionAt s id) = PENDING /\
     tx_isBlockchainVerified (transactionAt s id) = true).

(** The two id arrays list the ids handed out, in order. *)
Definition lists_ok (s : State) : Prop :=
  allEventIds s = idsUpTo (eventCounter s) /\
  allTransactionIds s = idsUpTo (transactionCounter s).

(** The log accounts for the pools and for the balance: a pool's distributed
    amount is the sum of its logged distributions, and the logged donations
    are covered by the balance plus the logged distributions. *)
Definition log_ok (s : State) : Prop :=
  (forall id, fd_distributedAmount (fundAt s id) = distributedInLog id (emitted s)) /\
  donatedInLog (emitted s) <= balance s + paidOutInLog (emitted s).

(** A fingerprint is marked processed only if a stored event carries it. *)
Definition hashes_ok (s : State) : Prop :=
  forall h, isProcessed s h = true ->
    exists id, 0 < id <= eventCounter s /\ ev_imageHash (eventAt s id) = h.

(** Every logged distribution names a pool that exists, and the event that
    pool refers to. *)
Definition distributions_ok (s : State) : Prop :=
  forall f e a, In (FundDistributed f e a) (emitted s) ->
    0 < f <= fundCounter s /\ e = fd_eventId (fundAt s f).

(** ** A sample history

    Concrete transactions used to exercise the theorems: account 1 deploys
    the contract at address 100 and acts as its owner, account 9 has no
    role, and every recipient accepts ether, except in [refusing_env],
    where the owner acts and no recipient does (each reverts with no data),
    and in [mimicking_env], where each recipient reverts with the message
    of the contract's own authorization check. Distributions go to the
    account [relief_agency]. *)
Definition deployer_env : Env := mkEnv 1 1000 (fun _ => true) (fun _ => EmptyString).
Definition stranger_env : Env := mkEnv 9 1001 (fun _ => true) (fun _ => EmptyString).
Definition refusing_env : Env := mkEnv 1 1002 (fun _ => false) (fun _ => EmptyString).
Definition mimicking_env : Env :=
  mkEnv 1 1003 (fun _ => false) (fun _ => "Not authorized").
Definition relief_agency : address := 70000.
Definition deployed : State := constructor 1 100 0.

Definition sample_history : list (Env * Call) :=
  [ (deployer_env, Call_createDisasterEvent FLOOD "Kerala" "0xabc" 50 10000 75 50);
    (deployer_env, Call_verifyDisasterEvent 1);
    (deployer_env, Call_createAndApproveFund 1 100000);
    (stranger_env, Call_receive 200000);
    (deployer_env, Call_distributeFund 1 relief_agency 60000);
    (deployer_env, Call_distributeFund 1 relief_agency 40000) ].

(** The sample history stopped after the event was reported, after it was
    verified, after 60000 of the pool's 100000 were distributed, and at its
    end, when the pool is fully distributed. *)
Definition reported : State := run (firstn 1 sample_history) deployed.
Definition verified : State := run (firstn 2 sample_history) deployed.
Definition partly_distributed : State := run (firstn 5 sample_history) deployed.
Definition fully_distributed : State := run sample_history deployed.

(** * Properties *)

(** ** Proof support *)

(** Unfold one call down to the tests on its inputs, without touching the
    arithmetic or the finite maps. *)
Ltac unfold_call :=
  unfold execute, dispatch, addAuthorizedOfficial, removeAuthorizedOfficial,
    transferOwnership, renounceOwnership, createDisasterEvent,
    verifyDisasterEvent, donateToEvent, createAndApproveFund, distributeFund,
    receive, nonReentrant, onlyOwner, onlyAuthorized, eventExists, fundExists,
    transfer, updateFund, payable, emit, checked_add, require, read, write,
    bind, ret;
  unfold isAuthorized, isOfficial, isProcessed, fundAt, eventAt, transactionAt in *.

Ltac simpl_state :=
  cbn [_owner _status eventCounter transactionCounter fundCounter
       disasterEvents fundTransactions disasterFunds processedImageHashes
       authorizedOfficials allEventIds allTransactionIds self balance emitted
       set_owner set_status set_eventCounter set_transactionCounter
       set_fundCounter set_disasterEvents set_fundTransactions
       set_disasterFunds set_processedImageHashes set_authorizedOfficials
       set_allEventIds set_allTransactionIds set_balance set_emitted
       fd_fundId fd_eventId fd_totalAmount fd_distributedAmount fd_createdAt
       fd_approvedBy fd_status fd_set_distributedAmount fd_set_status
       ev_isVerified ev_set_isVerified ev_imageHash ev_eventId
       ev_severityScore ev_severityLevel ev_infrastructureDamage
       tx_status tx_isBlockchainVerified tx_amount tx_eventId tx_donor
       tx_transactionId
       fst snd negb andb from_option id] in *;
  rewrite ?lookup_insert_eq in *.

(** Use the tests already known from the context, then split on the rest. *)
Ltac use_known :=
  repeat match goal with
         | H : ?c = true |- context [if ?c then _ else _] => rewrite H
         | H : ?c = false |- context [if ?c then _ else _] => rewrite H
         | H : ?c = true |- context [if negb ?c then _ else _] => rewrite H
         | H : ?c = false |- context [if negb ?c then _ else _] => rewrite H
         | H : ?c = true |- context [if _ && ?c then _ else _] => rewrite H
         | H : ?c = true |- context [if ?c && _ then _ else _] => rewrite H
         end.

Ltac split_tests :=
  repeat first
    [ progress simpl_state
    | progress use_known
    | match goal with
      | |- context [if ?c then _ else _] => destruct c eqn:?
      end ].

Lemma FundStatus_eqb_eq a b : FundStatus_eqb a b = true <-> a = b.
Proof. destruct a, b; simpl; split; congruence. Qed.

Ltac bool_facts :=
  repeat match goal with
         | H : _ && _ = true |- _ => apply andb_prop in H as [? ?]
         | H : _ || _ = false |- _ => apply orb_false_elim in H as [? ?]
         | H : negb _ = true |- _ => apply negb_true_iff in H
         | H : negb _ = false |- _ => apply negb_false_iff in H
         | H : (_ <=? _) = true |- _ => apply N.leb_le in H
         | H : (_ <=? _) = false |- _ => apply N.leb_gt in H
         | H : (_ <? _) = true |- _ => apply N.ltb_lt in H
         | H : (_ <? _) = false |- _ => apply N.ltb_ge in H
         | H : (_ =? _) = true |- _ => apply N.eqb_eq in H
         | H : (_ =? _) = false |- _ => apply N.eqb_neq in H
         | H : FundStatus_eqb _ _ = true |- _ => apply FundStatus_eqb_eq in H
         end.

Lemma in_range_true id c : 0 < id <= c -> (0 <? id) && (id <=? c) = true.
Proof.
  intros [H1 H2]. apply andb_true_intro. split.
  - by apply N.ltb_lt.
  - by apply N.leb_le.
Qed.

Lemma in_range_false id c : ~ (0 < id <= c) -> (0 <? id) && (id <=? c) = false.
Proof.
  intros H. destruct ((0 <? id) && (id <=? c)) eqn:E; [|done].
  apply andb_prop in E as [E1 E2].
  apply N.ltb_lt in E1. apply N.leb_le in E2. lia.
Qed.

Lemma reachable_run txs s :
  forallb (fun t => wf_call (snd t)) txs = true ->
  reachable s -> reachable (run txs s).
Proof.
  revert s. induction txs as [|[env c] rest IH]; intros s Hwf Hs; [done|].
  simpl in Hwf. apply andb_prop in Hwf as [Hc Hrest].
  simpl. apply IH; [done|]. by apply reachable_step.
Qed.

Lemma reachable_partly_distributed : reachable partly_distributed.
Proof. apply reachable_run; [reflexivity|]. apply reachable_deployed. Qed.

Lemma reachable_fully_distributed : reachable fully_distributed.
Proof. apply reachable_run; [reflexivity|]. apply reachable_deployed. Qed.

(** ** The invariants hold in every reachable state *)

Ltac fund_case Hf :=
  let id := fresh "id" in
  let Hid := fresh "Hid" in
  let f := fresh "f" in
  let Hlook := fresh "Hlook" in
  let Hok := fresh "Hok" in
  let Hne := fresh "Hne" in
  intros id Hid; bool_facts;
  match goal with
  | |- context [<[?k := _]> _ !! id] =>
      destruct (Hf k) as (f & Hlook & Hok); [lia|];
      rewrite Hlook in *; simpl_state;
      destruct (decide (id = k)) as [->|Hne];
      [ rewrite ?lookup_insert_eq; eexists; split; [reflexivity|]
      | rewrite !lookup_insert_ne by done; by apply Hf ]
  end;
  unfold fund_ok in *; destruct f; simpl_state; simpl in *;
  (repeat split; try lia;
   first [ left; split; [assumption | lia] | right; split; [reflexivity | lia] ]).

Lemma funds_ok_step env c s :
  wf_call c = true -> funds_ok s -> funds_ok (snd (execute env c s)).
Proof.
  intros Hwf [Hst Hf].
  destruct c; unfold_call; split_tests; try (split; assumption).
  all: split; simpl_state; [first [reflexivity | assumption]|]; try assumption.
  - intros id Hid. destruct (decide (id = fundCounter s + 1)) as [->|Hne].
    + rewrite lookup_insert_eq. eexists; split; [reflexivity|].
      simpl in Hwf. bool_facts. unfold fund_ok; simpl_state.
      repeat split; try lia. left; split; [done|lia].
    + rewrite lookup_insert_ne by done. apply Hf. lia.
  - fund_case Hf.
  - fund_case Hf.
  - fund_case Hf.
  - fund_case Hf.
Qed.

Lemma funds_ok_deployed deployer me bal : funds_ok (constructor deployer me bal).
Proof. split; [reflexivity|]. simpl. intros id Hid. lia. Qed.

Lemma funds_ok_reachable s : reachable s -> funds_ok s.
Proof.
  induction 1 as [deployer me bal|s env c Hs IH Hwf].
  - apply funds_ok_deployed.
  - by apply funds_ok_step.
Qed.

Lemma verified_same_hash (m : gmap N DisasterEvent) (k id : N) :
  ev_imageHash (default zeroEvent
    (<[k := ev_set_isVerified true (default zeroEvent (m !! k))]> m !! id))
  = ev_imageHash (default zeroEvent (m !! id)).
Proof.
  destruct (decide (id = k)) as [->|Hne].
  - rewrite lookup_insert_eq. reflexivity.
  - by rewrite lookup_insert_ne.
Qed.

Lemma events_ok_step env c s :
  events_ok s -> events_ok (snd (execute env c s)).
Proof.
  intros [He Hu].
  destruct c; unfold_call; split_tests; try (split; assumption).
  - (* createDisasterEvent *)
    bool_facts. split; unfold eventAt; simpl_state.
    + intros id Hid. destruct (decide (id = eventCounter s + 1)) as [->|Hne].
      * rewrite lookup_insert_eq. eexists; split; [reflexivity|]. simpl.
        rewrite lookup_insert_eq. repeat split; lia.
      * rewrite lookup_insert_ne by done.
        destruct (He id) as (e & Hl & Hid' & Hp & Hs & Hlv); [lia|].
        exists e. repeat split; try done.
        destruct (decide (_imageHash = ev_imageHash e)) as [->|Hh].
        -- apply lookup_insert_eq.
        -- by rewrite lookup_insert_ne.
    + assert (forall id, 0 < id <= eventCounter s ->
                ev_imageHash (default zeroEvent (disasterEvents s !! id)) <> _imageHash)
        as Hfresh.
      { intros id Hid Heq. destruct (He id) as (e & Hl & _ & Hp & _); [done|].
        rewrite Hl in Heq. simpl in Heq. rewrite Heq in Hp.
        rewrite Hp in *. discriminate. }
      intros id1 id2 H1 H2.
      destruct (decide (id1 = eventCounter s + 1)) as [->|Hne1];
        destruct (decide (id2 = eventCounter s + 1)) as [->|Hne2];
        rewrite ?lookup_insert_eq, ?lookup_insert_ne by done; simpl.
      * done.
      * intros Heq. exfalso. apply (Hfresh id2); [lia|done].
      * intros Heq. exfalso. apply (Hfresh id1); [lia|done].
      * apply Hu; lia.
  - (* verifyDisasterEvent *)
    bool_facts. split; unfold eventAt; simpl_state.
    + intros id Hid. destruct (He id) as (e & Hl & Hid' & Hp & Hs & Hlv); [done|].
      destruct (decide (id = _eventId)) as [->|Hne].
      * rewrite lookup_insert_eq, Hl. eexists; split; [reflexivity|].
        destruct e; simpl in *. done.
      * rewrite lookup_insert_ne by done. by exists e.
    + intros id1 id2 H1 H2. rewrite !verified_same_hash. by apply Hu.
Qed.

Lemma events_ok_deployed deployer me bal : events_ok (constructor deployer me bal).
Proof. split; simpl; intros; lia. Qed.

Lemma events_ok_reachable s : reachable s -> events_ok s.
Proof.
  induction 1 as [deployer me bal|s env c Hs IH Hwf].
  - apply events_ok_deployed.
  - by apply events_ok_step.
Qed.

(** ** What a transaction leaves alone

    Across any transaction: a fund pool keeps its total, its distributed
    amount does not decrease and its status does not move back; a processed
    fingerprint stays processed; a stored event changes at most in its
    verification flag; a stored donation does not change. *)



Lemma processed_step env c s h :
  isProcessed s h = true -> isProcessed (snd (execute env c s)) h = true.
Proof.
  intros Hp. destruct c; unfold_call; split_tests; try assumption.
  destruct (decide (_imageHash = h)) as [->|Hne].
  - by rewrite lookup_insert_eq.
  - by rewrite lookup_insert_ne.
Qed.

Lemma processed_run txs s h :
  isProcessed s h = true -> isProcessed (run txs s) h = true.
Proof.
  revert s. induction txs as [|[env c] rest IH]; intros s Hp; simpl; [done|].
  apply IH. by apply processed_step.
Qed.

Lemma event_step env c s id :
  id <= eventCounter s ->
  (eventAt (snd (execute env c s)) id = eventAt s id \/
   eventAt (snd (execute env c s)) id = ev_set_isVerified true (eventAt s id)) /\
  eventCounter s <= eventCounter (snd (execute env c s)).
Proof.
  intros Hid. destruct c; unfold_call; split_tests;
    try (split; [by left | lia]).
  - rewrite lookup_insert_ne by lia. split; [by left | lia].
  - split; [|lia]. destruct (decide (id = _eventId)) as [->|Hne].
    + right. by rewrite lookup_insert_eq.
    + left. by rewrite lookup_insert_ne.
Qed.

Lemma event_run txs s id :
  id <= eventCounter s ->
  (eventAt (run txs s) id = eventAt s id \/
   eventAt (run txs s) id = ev_set_isVerified true (eventAt s id)) /\
  eventCounter s <= eventCounter (run txs s).
Proof.
  revert s. induction txs as [|[env c] rest IH]; intros s Hid; simpl.
  - split; [by left | lia].
  - destruct (event_step env c s id Hid) as [Hstep Hmono].
    destruct (IH (snd (execute env c s))) as [Hrest Hmono']; [lia|].
    split; [|lia].
    destruct Hrest as [Hrest|Hrest]; destruct Hstep as [Hstep|Hstep];
      rewrite Hrest, Hstep; auto.
Qed.

Lemma verified_run txs s id :
  id <= eventCounter s -> ev_isVerified (eventAt s id) = true ->
  ev_isVerified (eventAt (run txs s) id) = true.
Proof.
  intros Hid Hver. destruct (event_run txs s id Hid) as [[Hsame|Hset] _].
  - by rewrite Hsame.
  - by rewrite Hset.
Qed.

Lemma transactions_step env c s tid :
  tid <= transactionCounter s ->
  fundTransactions (snd (execute env c s)) !! tid = fundTransactions s !! tid /\
  transactionCounter s <= transactionCounter (snd (execute env c s)).
Proof.
  intros Htid. destruct c; unfold_call; split_tests; split; try reflexivity; try lia.
  apply lookup_insert_ne. lia.
Qed.

Lemma transactions_run txs s tid :
  tid <= transactionCounter s ->
  transactionAt (run txs s) tid = transactionAt s tid /\
  transactionCounter s <= transactionCounter (run txs s).
Proof.
  revert s. induction txs as [|[env c] rest IH]; intros s Htid; simpl.
  - split; [reflexivity|lia].
  - destruct (transactions_step env c s tid Htid) as [Hsame Hmono].
    destruct (IH (snd (execute env c s))) as [Hrest Hmono']; [lia|].
    split; [|lia]. rewrite Hrest. unfold transactionAt. by rewrite Hsame.
Qed.

(** ** Fund accounting *)




(** A distribution within the cap, by an authorized caller, covered by the
    balance and accepted by the recipient, succeeds: the distributed amount
    grows by the amount, and the pool becomes DISTRIBUTED exactly when the
    new distributed amount is the total. *)
Lemma distributeFund_within_cap env id recipient amount s :
  reachable s ->
  isAuthorized s (msg_sender env) = true ->
  0 < id <= fundCounter s ->
  fd_status (fundAt s id) = APPROVED ->
  fd_distributedAmount (fundAt s id) + amount <= fd_totalAmount (fundAt s id) ->
  amount <= balance s ->
  canReceive env recipient = true ->
  fst (execute env (Call_distributeFund id recipient amount) s) = Success /\
  fd_distributedAmount (fundAt (snd (execute env (Call_distributeFund id recipient amount) s)) id)
    = fd_distributedAmount (fundAt s id) + amount /\
  fd_status (fundAt (snd (execute env (Call_distributeFund id recipient amount) s)) id)
    = (if fd_distributedAmount (fundAt s id) + amount =? fd_totalAmount (fundAt s id)
       then DISTRIBUTED else APPROVED).
Proof.
  intros Hreach Hauth Hin Happr Hcap Hbal Hacc.
  destruct (funds_ok_reachable s Hreach) as [Hopen Hfunds].
  destruct (Hfunds id Hin) as (f & Hlook & Hbound & Hle & Hst).
  assert (fundAt s id = f) as Hf by (unfold fundAt; by rewrite Hlook).
  rewrite <- Hf in Hbound. clear Hf Hlook Hfunds Hle Hst f.
  apply in_range_true in Hin.
  apply FundStatus_eqb_eq in Happr.
  assert ((fd_distributedAmount (fundAt s id) + amount <=? MAX_UINT256) = true) as H2
    by (apply N.leb_le; lia).
  apply N.leb_le in Hcap. apply N.leb_le in Hbal.
  destruct (fd_distributedAmount (fundAt s id) + amount =? fd_totalAmount (fundAt s id))
    eqn:Efull;
    unfold_call; split_tests; bool_facts; split_and!;
    first [reflexivity | assumption | lia].
Qed.

(** The sample history ends with the pool fully distributed. *)
Example sample_history_distributes_pool :
  fundAt partly_distributed 1 = mkDisasterFund 1 1 100000 60000 1000 1 APPROVED /\
  fundAt fully_distributed 1 = mkDisasterFund 1 1 100000 100000 1000 1 DISTRIBUTED /\
  balance fully_distributed = 100000.
Proof. vm_compute. auto. Qed.




(** ** Uniqueness of fingerprints *)

Lemma createDisasterEvent_processed env t loc hash score affected infra area s :
  isProcessed s hash = true ->
  (exists r, execute env (Call_createDisasterEvent t loc hash score affected infra area) s
             = (Reverted r, s)) /\
  (isAuthorized s (msg_sender env) = true -> score <= 100 ->
   execute env (Call_createDisasterEvent t loc hash score affected infra area) s
   = (Reverted ImageAlreadyProcessed, s)).
Proof.
  intros Hp. split.
  - unfold_call. split_tests; eexists; reflexivity.
  - intros Hauth Hscore.
    assert ((0 <=? score) && (score <=? 100) = true) as Hok.
    { apply andb_true_intro. split; apply N.leb_le; lia. }
    unfold_call. by split_tests.
Qed.

Lemma createDisasterEvent_success env t loc hash score affected infra area s :
  fst (execute env (Call_createDisasterEvent t loc hash score affected infra area) s)
    = Success ->
  isProcessed s hash = false /\
  isProcessed (snd (execute env
     (Call_createDisasterEvent t loc hash score affected infra area) s)) hash = true /\
  eventCounter (snd (execute env
     (Call_createDisasterEvent t loc hash score affected infra area) s))
    = eventCounter s + 1 /\
  eventAt (snd (execute env
     (Call_createDisasterEvent t loc hash score affected infra area) s))
     (eventCounter s + 1)
    = mkDisasterEvent (eventCounter s + 1) t loc (block_timestamp env) hash score
        (getSeverityLevel score) (msg_sender env) false affected infra area.
Proof.
  unfold_call. split_tests; try discriminate. intros _. bool_facts.
  split_and!; try reflexivity. done.
Qed.

(** C2, as the contract has it. In every reachable state no two events
    share a fingerprint, and the fingerprint of every event is marked
    processed. Once a creation with some fingerprint has succeeded, then
    after any further transactions a creation with the same fingerprint is
    rejected and changes nothing, so no event is added and none is
    overwritten; the first event is still stored under its id, as created
    or with only its verification flag set. The rejection is "Image already
    processed" (the duplicate error) when the caller is authorized and the
    score is at most 100; the authorization and score checks come first and
    report their own errors otherwise. *)
Theorem fingerprint_unique (s : State) :
  reachable s ->
  (forall id1 id2, 0 < id1 <= eventCounter s -> 0 < id2 <= eventCounter s ->
     ev_imageHash (eventAt s id1) = ev_imageHash (eventAt s id2) -> id1 = id2) /\
  (forall id, 0 < id <= eventCounter s ->
     isProcessed s (ev_imageHash (eventAt s id)) = true) /\
  (forall env t loc hash score affected infra area txs
          env2 t2 loc2 score2 affected2 infra2 area2,
     fst (execute env (Call_createDisasterEvent t loc hash score affected infra area) s)
       = Success ->
     let created :=
       mkDisasterEvent (eventCounter s + 1) t loc (block_timestamp env) hash score
         (getSeverityLevel score) (msg_sender env) false affected infra area in
     let s1 :=
       run txs (snd (execute env
         (Call_createDisasterEvent t loc hash score affected infra area) s)) in
     (exists r,
        execute env2
          (Call_createDisasterEvent t2 loc2 hash score2 affected2 infra2 area2) s1
        = (Reverted r, s1)) /\
     (isAuthorized s1 (msg_sender env2) = true -> score2 <= 100 ->
        execute env2
          (Call_createDisasterEvent t2 loc2 hash score2 affected2 infra2 area2) s1
        = (Reverted ImageAlreadyProcessed, s1)) /\
     (eventAt s1 (eventCounter s + 1) = created \/
      eventAt s1 (eventCounter s + 1) = ev_set_isVerified true created)) /\
  errorKind ImageAlreadyProcessed = Some DuplicateError.
Proof.
  intros Hreach. destruct (events_ok_reachable s Hreach) as [Hev Huniq].
  split; [|split; [|split]].
  - exact Huniq.
  - intros id Hid. destruct (Hev id Hid) as (e & Hlook & _ & Hp & _).
    unfold isProcessed, eventAt. rewrite Hlook. simpl. by rewrite Hp.
  - intros env t loc hash score affected infra area txs
      env2 t2 loc2 score2 affected2 infra2 area2 Hok created s1.
    destruct (createDisasterEvent_success _ _ _ _ _ _ _ _ _ Hok)
      as (_ & Hp & Hcount & Hstored).
    assert (isProcessed s1 hash = true) as Hp1 by (by apply processed_run).
    destruct (createDisasterEvent_processed env2 t2 loc2 hash score2 affected2
                infra2 area2 s1 Hp1) as [Hfail Hreason].
    split; [exact Hfail|]. split; [exact Hreason|].
    unfold created. rewrite <- Hstored. apply (event_run txs). lia.
  - reflexivity.
Qed.

Lemma fingerprint_unique_witness :
  exists r,
    execute deployer_env
      (Call_createDisasterEvent EARTHQUAKE "Kochi" "0xabc" 60 500 20 5)
      (run (tl sample_history)
         (snd (execute deployer_env
            (Call_createDisasterEvent FLOOD "Kerala" "0xabc" 50 10000 75 50) deployed)))
    = (Reverted r,
       run (tl sample_history)
         (snd (execute deployer_env
            (Call_createDisasterEvent FLOOD "Kerala" "0xabc" 50 10000 75 50) deployed))).
Proof.
  destruct (fingerprint_unique deployed (reachable_deployed 1 100 0))
    as (_ & _ & Hsecond & _).
  destruct (Hsecond deployer_env FLOOD "Kerala" "0xabc" 50 10000 75 50
              (tl sample_history) deployer_env EARTHQUAKE "Kochi" 60 500 20 5)
    as (Hfail & _).
  - vm_compute. reflexivity.
  - exact Hfail.
Defined.

(** A second creation with a processed fingerprint does not always fail
    with the duplicate error; two inputs show it. After the
    deployer has reported an event with fingerprint "0xabc", the deployer
    submitting the same fingerprint with a score of 150 is rejected with
    "Invalid severity score", and a caller without authorization submitting
    it is rejected with "Not authorized". Neither is the duplicate error. *)
Lemma duplicate_fingerprint_other_errors :
  fst (execute deployer_env
         (Call_createDisasterEvent FLOOD "Kerala" "0xabc" 50 10000 75 50) deployed)
    = Success /\
  isProcessed reported "0xabc" = true /\
  execute deployer_env
    (Call_createDisasterEvent FLOOD "Kerala" "0xabc" 150 10000 75 50) reported
    = (Reverted InvalidSeverityScore, reported) /\
  message InvalidSeverityScore = "Invalid severity score" /\
  errorKind InvalidSeverityScore <> Some DuplicateError /\
  execute stranger_env
    (Call_createDisasterEvent FLOOD "Kerala" "0xabc" 50 10000 75 50) reported
    = (Reverted NotAuthorized, reported) /\
  message NotAuthorized = "Not authorized" /\
  errorKind NotAuthorized <> Some DuplicateError.
Proof. vm_compute. split_and!; (reflexivity || discriminate). Qed.

(** ** Severity thresholds *)

(** C3: the severity level is LOW for a score of at most 40, MEDIUM for a
    score above 40 and at most 70, and HIGH above 70; at the boundaries 40
    gives LOW, 41 MEDIUM, 70 MEDIUM and 71 HIGH. The level is the value of
    the function [getSeverityLevel] at the score. *)
Theorem getSeverityLevel_thresholds (score : uint256) :
  (getSeverityLevel score = LOW <-> score <= 40) /\
  (getSeverityLevel score = MEDIUM <-> 40 < score <= 70) /\
  (getSeverityLevel score = HIGH <-> 70 < score) /\
  getSeverityLevel 40 = LOW /\ getSeverityLevel 41 = MEDIUM /\
  getSeverityLevel 70 = MEDIUM /\ getSeverityLevel 71 = HIGH.
Proof.
  unfold getSeverityLevel.
  destruct (score <=? 40) eqn:E40; destruct (score <=? 70) eqn:E70;
    try apply N.leb_le in E40; try apply N.leb_gt in E40;
    try apply N.leb_le in E70; try apply N.leb_gt in E70;
    repeat split; intros; try congruence; try lia; reflexivity.
Qed.

(** Every stored event carries the level of its score, and a score of at
    most 100: the level is never set independently. *)
Lemma stored_level_derived (s : State) (id : uint256) :
  reachable s -> 0 < id <= eventCounter s ->
  ev_severityLevel (eventAt s id) = getSeverityLevel (ev_severityScore (eventAt s id)) /\
  ev_severityScore (eventAt s id) <= 100.
Proof.
  intros Hreach Hid. destruct (events_ok_reachable s Hreach) as [Hev _].
  destruct (Hev id Hid) as (e & Hlook & _ & _ & Hscore & Hlevel).
  unfold eventAt. rewrite Hlook. simpl. by split.
Qed.

(** ** Verification of an event *)

(** C4: verifying an event is not idempotent. An unauthorized caller is
    rejected with an authorization error; an authorized caller naming an
    event id that does not exist is rejected with a not-found error; on an
    existing, unverified event an authorized call succeeds, sets the
    verification flag and emits the notification, and from then on, after
    any further transactions, every authorized call on the same event is
    rejected with "Already verified"; so is an authorized call on any event
    that is already verified. *)
Theorem verifyDisasterEvent_outcomes (env : Env) (id : uint256) (s : State) :
  (isAuthorized s (msg_sender env) = false ->
     execute env (Call_verifyDisasterEvent id) s = (Reverted NotAuthorized, s)) /\
  (isAuthorized s (msg_sender env) = true -> ~ (0 < id <= eventCounter s) ->
     execute env (Call_verifyDisasterEvent id) s = (Reverted EventDoesNotExist, s)) /\
  (isAuthorized s (msg_sender env) = true -> 0 < id <= eventCounter s ->
   ev_isVerified (eventAt s id) = true ->
     execute env (Call_verifyDisasterEvent id) s = (Reverted AlreadyVerified, s)) /\
  (isAuthorized s (msg_sender env) = true -> 0 < id <= eventCounter s ->
   ev_isVerified (eventAt s id) = false ->
     fst (execute env (Call_verifyDisasterEvent id) s) = Success /\
     eventAt (snd (execute env (Call_verifyDisasterEvent id) s)) id
       = ev_set_isVerified true (eventAt s id) /\
     emitted (snd (execute env (Call_verifyDisasterEvent id) s))
       = (emitted s ++ [DisasterEventVerified id true])%list /\
     forall txs env2,
       isAuthorized (run txs (snd (execute env (Call_verifyDisasterEvent id) s)))
         (msg_sender env2) = true ->
       execute env2 (Call_verifyDisasterEvent id)
         (run txs (snd (execute env (Call_verifyDisasterEvent id) s)))
       = (Reverted AlreadyVerified,
          run txs (snd (execute env (Call_verifyDisasterEvent id) s)))) /\
  errorKind NotAuthorized = Some AuthorizationError /\
  errorKind EventDoesNotExist = Some NotFoundError /\
  errorKind AlreadyVerified = Some AlreadyVerifiedError.
Proof.
  split_and!; try reflexivity.
  - intros Hauth. unfold_call. by split_tests.
  - intros Hauth Hno. apply in_range_false in Hno.
    unfold_call. by split_tests.
  - intros Hauth Hin Hver. apply in_range_true in Hin.
    unfold_call. by split_tests.
  - intros Hauth Hin Hver.
    assert (fst (execute env (Call_verifyDisasterEvent id) s) = Success /\
            eventAt (snd (execute env (Call_verifyDisasterEvent id) s)) id
              = ev_set_isVerified true (eventAt s id) /\
            emitted (snd (execute env (Call_verifyDisasterEvent id) s))
              = (emitted s ++ [DisasterEventVerified id true])%list /\
            eventCounter (snd (execute env (Call_verifyDisasterEvent id) s))
              = eventCounter s) as (Hok & Hset & Hlog & Hcount).
    { apply in_range_true in Hin. unfold_call. split_tests.
      split_and!; reflexivity. }
    split_and!; try assumption.
    intros txs env2 Hauth2.
    set (s1 := snd (execute env (Call_verifyDisasterEvent id) s)) in *.
    assert (id <= eventCounter s1) as Hid1 by lia.
    assert (ev_isVerified (eventAt s1 id) = true) as Hver1 by (by rewrite Hset).
    pose proof (verified_run txs s1 id Hid1 Hver1) as Hver2.
    destruct (event_run txs s1 id Hid1) as [_ Hmono].
    assert ((0 <? id) && (id <=? eventCounter (run txs s1)) = true) as Hin2
      by (apply in_range_true; lia).
    clearbody s1. unfold_call. by split_tests.
Qed.

Lemma verifyDisasterEvent_outcomes_witness :
  fst (execute deployer_env (Call_verifyDisasterEvent 1) reported) = Success /\
  eventAt (snd (execute deployer_env (Call_verifyDisasterEvent 1) reported)) 1
    = ev_set_isVerified true (eventAt reported 1) /\
  emitted (snd (execute deployer_env (Call_verifyDisasterEvent 1) reported))
    = (emitted reported ++ [DisasterEventVerified 1 true])%list /\
  forall txs env2,
    isAuthorized (run txs (snd (execute deployer_env (Call_verifyDisasterEvent 1) reported)))
      (msg_sender env2) = true ->
    execute env2 (Call_verifyDisasterEvent 1)
      (run txs (snd (execute deployer_env (Call_verifyDisasterEvent 1) reported)))
    = (Reverted AlreadyVerified,
       run txs (snd (execute deployer_env (Call_verifyDisasterEvent 1) reported))).
Proof.
  destruct (verifyDisasterEvent_outcomes deployer_env 1 reported)
    as (_ & _ & _ & Hfirst & _).
  apply Hfirst.
  - reflexivity.
  - assert (eventCounter reported = 1) as -> by reflexivity. lia.
  - reflexivity.
Defined.

(** ** Creation of a fund pool *)

(** C5: for an authorized caller and an existing event,
    [createAndApproveFund] is rejected with a validation error while the
    event is unverified; an amount of zero is rejected, whoever calls; on a
    verified event with a positive amount (and a fund counter that can
    still be incremented) it succeeds, and the pool stored under the next
    id has status APPROVED, distributed amount 0 and the given total. *)
Theorem createAndApproveFund_outcomes (env : Env) (id amount : uint256) (s : State) :
  (isAuthorized s (msg_sender env) = true -> 0 < id <= eventCounter s ->
   ev_isVerified (eventAt s id) = false ->
     exists r, execute env (Call_createAndApproveFund id amount) s = (Reverted r, s) /\
               errorKind r = Some ValidationError) /\
  (exists r, execute env (Call_createAndApproveFund id 0) s = (Reverted r, s)) /\
  (isAuthorized s (msg_sender env) = true -> 0 < id <= eventCounter s ->
     execute env (Call_createAndApproveFund id 0) s = (Reverted AmountMustBePositive, s)) /\
  (isAuthorized s (msg_sender env) = true -> 0 < id <= eventCounter s ->
   ev_isVerified (eventAt s id) = true -> 0 < amount ->
   fundCounter s < MAX_UINT256 ->
     fst (execute env (Call_createAndApproveFund id amount) s) = Success /\
     fundCounter (snd (execute env (Call_createAndApproveFund id amount) s))
       = fundCounter s + 1 /\
     fundAt (snd (execute env (Call_createAndApproveFund id amount) s))
       (fundCounter s + 1)
       = mkDisasterFund (fundCounter s + 1) id amount 0 (block_timestamp env)
           (msg_sender env) APPROVED /\
     emitted (snd (execute env (Call_createAndApproveFund id amount) s))
       = (emitted s ++ [FundApproved (fundCounter s + 1) id amount (msg_sender env)])%list).
Proof.
  split_and!.
  - intros Hauth Hin Hver. apply in_range_true in Hin.
    unfold_call. split_tests; eexists; (split; [reflexivity|reflexivity]).
  - assert ((0 <? 0) = false) as Hzero by reflexivity.
    unfold_call. split_tests; eexists; reflexivity.
  - intros Hauth Hin. apply in_range_true in Hin.
    assert ((0 <? 0) = false) as Hzero by reflexivity.
    unfold_call. by split_tests.
  - intros Hauth Hin Hver Hpos Hroom. apply in_range_true in Hin.
    apply N.ltb_lt in Hpos.
    assert ((fundCounter s + 1 <=? MAX_UINT256) = true) as Hfit
      by (apply N.leb_le; lia).
    unfold_call. split_tests. split_and!; reflexivity.
Qed.

Lemma createAndApproveFund_outcomes_witness :
  fst (execute deployer_env (Call_createAndApproveFund 1 100000) verified) = Success /\
  fundCounter (snd (execute deployer_env (Call_createAndApproveFund 1 100000) verified))
    = fundCounter verified + 1 /\
  fundAt (snd (execute deployer_env (Call_createAndApproveFund 1 100000) verified))
    (fundCounter verified + 1)
    = mkDisasterFund (fundCounter verified + 1) 1 100000 0
        (block_timestamp deployer_env) (msg_sender deployer_env) APPROVED /\
  emitted (snd (execute deployer_env (Call_createAndApproveFund 1 100000) verified))
    = (emitted verified
         ++ [FundApproved (fundCounter verified + 1) 1 100000 (msg_sender deployer_env)])%list.
Proof.
  destruct (createAndApproveFund_outcomes deployer_env 1 100000 verified)
    as (_ & _ & _ & Hok).
  apply Hok.
  - reflexivity.
  - assert (eventCounter verified = 1) as -> by reflexivity. lia.
  - reflexivity.
  - lia.
  - assert (fundCounter verified = 0) as -> by reflexivity. reflexivity.
Defined.

(** ** Validation of the inputs of an event *)

(** C6, as the contract has it: only the severity score is validated. A
    score above 100 is rejected whoever calls, and with "Invalid severity
    score" (a validation error) when the caller is authorized; in both cases
    no event is created. The infrastructure-damage figure is not checked:
    the outcome of the call does not depend on it, and a successful call
    stores the figure as given. *)
Theorem createDisasterEvent_validation (env : Env) (t : DisasterType)
    (loc hash : string) (score affected infra area : uint256) (s : State) :
  (100 < score ->
     (exists r, execute env (Call_createDisasterEvent t loc hash score affected infra area) s
                = (Reverted r, s)) /\
     (isAuthorized s (msg_sender env) = true ->
        execute env (Call_createDisasterEvent t loc hash score affected infra area) s
        = (Reverted InvalidSeverityScore, s))) /\
  errorKind InvalidSeverityScore = Some ValidationError /\
  (forall infra',
     fst (execute env (Call_createDisasterEvent t loc hash score affected infra' area) s)
     = fst (execute env (Call_createDisasterEvent t loc hash score affected infra area) s)) /\
  (fst (execute env (Call_createDisasterEvent t loc hash score affected infra area) s)
     = Success ->
   ev_infrastructureDamage
     (eventAt (snd (execute env (Call_createDisasterEvent t loc hash score affected infra area) s))
        (eventCounter s + 1)) = infra).
Proof.
  split_and!; try reflexivity.
  - intros Hbig.
    assert ((0 <=? score) && (score <=? 100) = false) as Hscore.
    { apply andb_false_intro2. apply N.leb_gt. lia. }
    split.
    + unfold_call. split_tests; eexists; reflexivity.
    + intros Hauth. unfold_call. by split_tests.
  - intros infra'. unfold_call. by split_tests.
  - unfold_call. split_tests; try discriminate. reflexivity.
Qed.

Lemma createDisasterEvent_validation_witness :
  (exists r, execute deployer_env
               (Call_createDisasterEvent FLOOD "Kerala" "0xabc" 150 10000 75 50) deployed
             = (Reverted r, deployed)) /\
  (isAuthorized deployed (msg_sender deployer_env) = true ->
   execute deployer_env
     (Call_createDisasterEvent FLOOD "Kerala" "0xabc" 150 10000 75 50) deployed
   = (Reverted InvalidSeverityScore, deployed)).
Proof.
  destruct (createDisasterEvent_validation deployer_env FLOOD "Kerala" "0xabc"
              150 10000 75 50 deployed) as (Hscore & _).
  apply Hscore. lia.
Defined.

(** An infrastructure-damage percentage outside [0,100] is not rejected:
    the deployer reports an event with a damage figure of
    150 on the freshly deployed ledger, the call succeeds, and event 1 is
    stored with the figure 150. *)
Lemma createDisasterEvent_accepts_damage_above_100 :
  100 < 150 /\
  fst (execute deployer_env
         (Call_createDisasterEvent FLOOD "Kerala" "0xabc" 50 10000 150 50) deployed)
    = Success /\
  eventCounter (snd (execute deployer_env
         (Call_createDisasterEvent FLOOD "Kerala" "0xabc" 50 10000 150 50) deployed))
    = 1 /\
  ev_infrastructureDamage (eventAt (snd (execute deployer_env
         (Call_createDisasterEvent FLOOD "Kerala" "0xabc" 50 10000 150 50) deployed)) 1)
    = 150.
Proof. split; [lia|]. vm_compute. auto. Qed.

(** ** Atomicity of rejected calls *)

(** In every function the checks come before the writes: when a call fails
    for any reason but the ether transfer, it has written nothing to the
    storage or the log by then. *)
Lemma checks_come_first env c s r s' :
  dispatch env c s = Fail r s' -> (forall data, r <> TransferFailed data) ->
  storage_unwritten s s'.
Proof.
  destruct c; unfold_call; split_tests; intros H Hr;
    inversion H; subst; try congruence;
    unfold storage_unwritten; simpl_state; by split_and!.
Qed.

(** The transfer of a distribution is the one step that can fail after a
    write: the pool stood at 61000 when the transfer failed, and stands at
    60000, as before, once the transaction has reverted. *)
Example transfer_fails_after_update :
  fst (execute refusing_env (Call_distributeFund 1 7 1000) partly_distributed)
    = Reverted (TransferFailed EmptyString) /\
  match dispatch refusing_env (Call_distributeFund 1 7 1000) partly_distributed with
  | Fail _ s' => fd_distributedAmount (fundAt s' 1)
  | Ok _ _ => 0
  end = 61000 /\
  fd_distributedAmount
    (fundAt (snd (execute refusing_env (Call_distributeFund 1 7 1000) partly_distributed)) 1)
    = 60000.
Proof. vm_compute. auto. Qed.

(** C7: whatever the call and its input, when the call is rejected the whole
    ledger state (every record, counter, the fingerprint set, the balance
    and the log) after the call is the state before it. *)
Theorem rejected_call_leaves_state (env : Env) (c : Call) (s : State) (r : Reason) :
  fst (execute env c s) = Reverted r -> snd (execute env c s) = s.
Proof.
  unfold execute. destruct (dispatch env c s) as [u s'|r' s']; simpl.
  - discriminate.
  - reflexivity.
Qed.

(** The rejection that comes last in a call: the transfer of a distribution
    fails after the pool's distributed amount has been raised, and the pool
    is as before. *)
Lemma rejected_call_leaves_state_witness :
  fst (execute refusing_env (Call_distributeFund 1 7 1000) partly_distributed)
    = Reverted (TransferFailed EmptyString) /\
  snd (execute refusing_env (Call_distributeFund 1 7 1000) partly_distributed)
    = partly_distributed.
Proof.
  split.
  - vm_compute. reflexivity.
  - apply (rejected_call_leaves_state refusing_env (Call_distributeFund 1 7 1000)
             partly_distributed (TransferFailed EmptyString)).
    vm_compute. reflexivity.
Defined.

(** ** Donations *)

(** C8: a donation is recorded only for an existing, verified event and a
    strictly positive amount, and under these conditions (with the
    transaction counter still incrementable and the guard open, as it is
    between transactions) it is recorded. The transaction stored under the
    next id has status PENDING and the ledger-verified flag set. No later
    transaction changes a stored donation. *)
Theorem donateToEvent_outcomes (env : Env) (value id : uint256) (purpose : string)
    (s : State) :
  (fst (execute env (Call_donateToEvent value id purpose) s) = Success ->
     0 < id <= eventCounter s /\
     ev_isVerified (eventAt s id) = true /\
     0 < value /\
     transactionCounter (snd (execute env (Call_donateToEvent value id purpose) s))
       = transactionCounter s + 1 /\
     transactionAt (snd (execute env (Call_donateToEvent value id purpose) s))
       (transactionCounter s + 1)
       = mkFundTransaction (transactionCounter s + 1) id (msg_sender env) value
           (block_timestamp env) PENDING purpose true /\
     emitted (snd (execute env (Call_donateToEvent value id purpose) s))
       = (emitted s
            ++ [FundDonated (transactionCounter s + 1) id (msg_sender env) value])%list) /\
  (0 < id <= eventCounter s -> ev_isVerified (eventAt s id) = true -> 0 < value ->
   _status s = false -> transactionCounter s < MAX_UINT256 ->
     fst (execute env (Call_donateToEvent value id purpose) s) = Success) /\
  (forall txs tid, 0 < tid <= transactionCounter s ->
     transactionAt (run txs s) tid = transactionAt s tid).
Proof.
  split_and!.
  - unfold_call. split_tests; try discriminate. intros _. bool_facts.
    split_and!; try reflexivity; try lia.
  - intros Hin Hver Hpos Hopen Hroom. apply in_range_true in Hin.
    apply N.ltb_lt in Hpos.
    assert ((transactionCounter s + 1 <=? MAX_UINT256) = true) as Hfit
      by (apply N.leb_le; lia).
    unfold_call. by split_tests.
  - intros txs tid Htid. apply transactions_run. lia.
Qed.

Lemma donateToEvent_outcomes_witness :
  fst (execute stranger_env (Call_donateToEvent 5000 1 "food") verified) = Success.
Proof.
  destruct (donateToEvent_outcomes stranger_env 5000 1 "food" verified)
    as (_ & Hok & _).
  apply Hok.
  - assert (eventCounter verified = 1) as -> by reflexivity. lia.
  - reflexivity.
  - lia.
  - reflexivity.
  - assert (transactionCounter verified = 0) as -> by reflexivity. reflexivity.
Defined.

(** ** Access control on event creation *)

(** C9: creating an event is a privileged operation. A caller that is not
    the owner and not in the authorized set is rejected with "Not
    authorized" (an authorization error), and the state, so also the set of
    events, is unchanged. *)
Theorem createDisasterEvent_unauthorized (env : Env) (t : DisasterType)
    (loc hash : string) (score affected infra area : uint256) (s : State) :
  msg_sender env <> _owner s ->
  isOfficial s (msg_sender env) = false ->
  execute env (Call_createDisasterEvent t loc hash score affected infra area) s
    = (Reverted NotAuthorized, s) /\
  errorKind NotAuthorized = Some AuthorizationError.
Proof.
  intros Hne Hoff. split; [|reflexivity].
  assert (isAuthorized s (msg_sender env) = false) as Hauth.
  { unfold isAuthorized. rewrite Hoff.
    apply orb_false_intro; [|done]. by apply N.eqb_neq. }
  unfold_call. by rewrite Hauth.
Qed.

Lemma createDisasterEvent_unauthorized_witness :
  execute stranger_env (Call_createDisasterEvent FLOOD "Kerala" "0xabc" 50 10000 75 50)
    deployed = (Reverted NotAuthorized, deployed) /\
  errorKind NotAuthorized = Some AuthorizationError.
Proof.
  apply (createDisasterEvent_unauthorized stranger_env FLOOD "Kerala" "0xabc"
           50 10000 75 50 deployed).
  - vm_compute. discriminate.
  - reflexivity.
Defined.

(** ** Distribution of a zero amount *)

(** C10: distribution does not require a positive amount, but the recipient
    decides whether a zero distribution goes through. In a reachable state,
    an authorized call that distributes 0 from an existing APPROVED pool
    passes every check of the contract (the custodial balance always covers
    0): when the recipient accepts the transfer the call succeeds, the pool
    (its distributed amount and its status) and the balance are unchanged,
    and a [FundDistributed] notification with amount 0 is emitted; when the
    recipient refuses ether the transfer, and with it the call, reverts
    with the recipient's revert data, and the state is unchanged. *)
Theorem distributeFund_zero_amount (env : Env) (id : uint256) (recipient : address)
    (s : State) :
  reachable s ->
  isAuthorized s (msg_sender env) = true ->
  0 < id <= fundCounter s ->
  fd_status (fundAt s id) = APPROVED ->
  (canReceive env recipient = true ->
     fst (execute env (Call_distributeFund id recipient 0) s) = Success /\
     fundAt (snd (execute env (Call_distributeFund id recipient 0) s)) id
       = fundAt s id /\
     balance (snd (execute env (Call_distributeFund id recipient 0) s)) = balance s /\
     emitted (snd (execute env (Call_distributeFund id recipient 0) s))
       = (emitted s ++ [FundDistributed id (fd_eventId (fundAt s id)) 0])%list) /\
  (canReceive env recipient = false ->
     execute env (Call_distributeFund id recipient 0) s
       = (Reverted (TransferFailed (revertData env recipient)), s)).
Proof.
  intros Hreach Hauth Hin Happr.
  destruct (funds_ok_reachable s Hreach) as [Hopen Hfunds].
  destruct (Hfunds id Hin) as (f & Hlook & Hbound & Hle & Hst).
  assert (fundAt s id = f) as Hf by (unfold fundAt; by rewrite Hlook).
  rewrite <- Hf in Hbound, Hle, Hst. clear Hf Hlook Hfunds.
  destruct Hst as [[_ Hlt]|[Hdist _]]; [|congruence].
  apply in_range_true in Hin.
  apply FundStatus_eqb_eq in Happr.
  assert ((fd_distributedAmount (fundAt s id) + 0 <=? MAX_UINT256) = true) as H2
    by (apply N.leb_le; lia).
  assert ((fd_distributedAmount (fundAt s id) + 0 <=? fd_totalAmount (fundAt s id))
          = true) as H3 by (apply N.leb_le; lia).
  assert ((0 <=? balance s) = true) as H4 by (apply N.leb_le; lia).
  assert ((fd_totalAmount (fundAt s id) <=? fd_distributedAmount (fundAt s id) + 0)
          = false) as H5 by (apply N.leb_gt; lia).
  split; intros Hacc; unfold_call.
  - split_tests; rewrite ?N.sub_0_r, ?N.add_0_r; split_and!; try reflexivity;
      by destruct (default zeroFund (disasterFunds s !! id)).
  - by split_tests.
Qed.

Lemma distributeFund_zero_amount_witness :
  fst (execute deployer_env (Call_distributeFund 1 relief_agency 0) partly_distributed) = Success /\
  fundAt (snd (execute deployer_env (Call_distributeFund 1 relief_agency 0) partly_distributed)) 1
    = fundAt partly_distributed 1 /\
  balance (snd (execute deployer_env (Call_distributeFund 1 relief_agency 0) partly_distributed))
    = balance partly_distributed /\
  emitted (snd (execute deployer_env (Call_distributeFund 1 relief_agency 0) partly_distributed))
    = (emitted partly_distributed
         ++ [FundDistributed 1 (fd_eventId (fundAt partly_distributed 1)) 0])%list.
Proof.
  destruct (distributeFund_zero_amount deployer_env 1 relief_agency partly_distributed)
    as [Haccepted _].
  - apply reachable_partly_distributed.
  - reflexivity.
  - assert (fundCounter partly_distributed = 1) as -> by reflexivity. lia.
  - reflexivity.
  - apply Haccepted. reflexivity.
Defined.

(** Every condition of the plain reading holds (a reachable state, the
    owner calling, pool 1 APPROVED, a balance that covers 0), and the call
    reverts, because the recipient refuses ether. *)
Lemma distributeFund_zero_amount_refused :
  isAuthorized partly_distributed (msg_sender refusing_env) = true /\
  fd_status (fundAt partly_distributed 1) = APPROVED /\
  0 <= balance partly_distributed /\
  canReceive refusing_env 7 = false /\
  fst (execute refusing_env (Call_distributeFund 1 7 0) partly_distributed)
    = Reverted (TransferFailed EmptyString).
Proof. vm_compute. split_and!; first [reflexivity | discriminate]. Qed.

(** * Further properties *)

(** ** More invariants of the reachable states *)

Lemma unset_ok_step env c s : unset_ok s -> unset_ok (snd (execute env c s)).
Proof.
  intros (He & Hf & Ht).
  destruct c; unfold_call; split_tests; try (split_and!; assumption);
    bool_facts; unfold unset_ok; simpl_state; split_and!; try assumption;
    intros id Hid; rewrite ?lookup_insert_ne by lia;
    first [apply He | apply Hf | apply Ht]; lia.
Qed.

Lemma references_ok_step env c s :
  references_ok s -> references_ok (snd (execute env c s)).
Proof.
  intros [Hf Ht].
  destruct c; unfold_call; split_tests; try (split; assumption); bool_facts;
    unfold references_ok, fundAt, eventAt, transactionAt; simpl_state.
  5-8: (split; [|exact Ht]; intros id Hid;
    (destruct (decide (id = _fundId)) as [->|Hne];
     [ rewrite !lookup_insert_eq; simpl_state | rewrite !lookup_insert_ne by done ]);
    by apply Hf).
  - (* createDisasterEvent *)
    split; intros id Hid.
    + destruct (Hf id Hid) as (H1 & H2 & H3).
      rewrite lookup_insert_ne by lia. split_and!; try done; lia.
    + destruct (Ht id Hid) as (H1 & H2 & H3 & H4 & H5 & H6).
      rewrite lookup_insert_ne by lia. split_and!; try done; lia.
  - (* verifyDisasterEvent *)
    split; intros id Hid.
    + destruct (Hf id Hid) as (H1 & H2 & H3). split_and!; try done; try lia.
      destruct (decide (fd_eventId (default zeroFund (disasterFunds s !! id)) = _eventId))
        as [Heq|Hne].
      * by rewrite Heq, lookup_insert_eq.
      * by rewrite lookup_insert_ne.
    + destruct (Ht id Hid) as (H1 & H2 & H3 & H4 & H5 & H6).
      split_and!; try done; try lia.
      destruct (decide (tx_eventId (default zeroTransaction (fundTransactions s !! id))
                        = _eventId)) as [Heq|Hne].
      * by rewrite Heq, lookup_insert_eq.
      * by rewrite lookup_insert_ne.
  - (* donateToEvent *)
    split; [exact Hf|]. intros id Hid.
    destruct (decide (id = transactionCounter s + 1)) as [->|Hne].
    + rewrite lookup_insert_eq. simpl. split_and!; try done; lia.
    + rewrite lookup_insert_ne by done. apply Ht. lia.
  - (* createAndApproveFund *)
    split; [|exact Ht]. intros id Hid.
    destruct (decide (id = fundCounter s + 1)) as [->|Hne].
    + rewrite lookup_insert_eq. simpl. split_and!; try done; lia.
    + rewrite lookup_insert_ne by done. apply Hf. lia.
Qed.

Lemma idsUpTo_succ n : idsUpTo (n + 1) = (idsUpTo n ++ [n + 1])%list.
Proof.
  unfold idsUpTo. rewrite N2Nat.inj_add. change (N.to_nat 1) with 1%nat.
  rewrite Nat.add_1_r, seq_S, map_app. simpl. f_equal. f_equal. lia.
Qed.

Lemma lists_ok_step env c s : lists_ok s -> lists_ok (snd (execute env c s)).
Proof.
  intros [He Ht].
  destruct c; unfold_call; split_tests; try (split; assumption);
    unfold lists_ok; simpl_state; rewrite ?idsUpTo_succ, ?He, ?Ht; by split.
Qed.

Lemma distributedInLog_app id l x :
  distributedInLog id (l ++ [x]) = distributedInLog id l + distributedInLog id [x].
Proof.
  induction l as [|y l IH]; simpl.
  - destruct x; lia.
  - destruct y; rewrite IH; simpl; lia.
Qed.

Lemma paidOutInLog_app l x :
  paidOutInLog (l ++ [x]) = paidOutInLog l + paidOutInLog [x].
Proof.
  induction l as [|y l IH]; simpl.
  - destruct x; lia.
  - destruct y; rewrite IH; simpl; lia.
Qed.

Lemma donatedInLog_app l x :
  donatedInLog (l ++ [x]) = donatedInLog l + donatedInLog [x].
Proof.
  induction l as [|y l IH]; simpl.
  - destruct x; lia.
  - destruct y; rewrite IH; simpl; lia.
Qed.

Lemma log_ok_step env c s :
  unset_ok s -> log_ok s -> log_ok (snd (execute env c s)).
Proof.
  intros (_ & Hunset & _) [Hd Hb].
  destruct c; unfold_call; split_tests; try (split; assumption); bool_facts;
    unfold log_ok, fundAt; simpl_state;
    rewrite ?paidOutInLog_app, ?donatedInLog_app; simpl;
    (split; [intros id; rewrite ?distributedInLog_app; simpl; rewrite ?N.add_0_r; try apply Hd|lia]).
  - destruct (decide (id = fundCounter s + 1)) as [->|Hne].
    + rewrite lookup_insert_eq. simpl. rewrite <- Hd.
      rewrite Hunset by lia. reflexivity.
    + rewrite lookup_insert_ne by done. apply Hd.
  - destruct (N.eqb_spec _fundId id) as [->|Hne];
      rewrite ?lookup_insert_eq, ?lookup_insert_ne by done; simpl_state;
      rewrite <- Hd; simpl; lia.
  - destruct (N.eqb_spec _fundId id) as [->|Hne];
      rewrite ?lookup_insert_eq, ?lookup_insert_ne by done; simpl_state;
      rewrite <- Hd; simpl; lia.
  - destruct (N.eqb_spec _fundId id) as [->|Hne];
      rewrite ?lookup_insert_eq, ?lookup_insert_ne by done; simpl_state;
      rewrite <- Hd; simpl; lia.
  - destruct (N.eqb_spec _fundId id) as [->|Hne];
      rewrite ?lookup_insert_eq, ?lookup_insert_ne by done; simpl_state;
      rewrite <- Hd; simpl; lia.
Qed.

Lemma hashes_ok_step env c s : hashes_ok s -> hashes_ok (snd (execute env c s)).
Proof.
  intros Hh.
  destruct c; unfold_call; split_tests; try assumption; bool_facts;
    unfold hashes_ok, isProcessed, eventAt; simpl_state; intros h Hp.
  - (* createDisasterEvent *)
    destruct (decide (_imageHash = h)) as [->|Hne].
    + exists (eventCounter s + 1). rewrite lookup_insert_eq. split; [lia|done].
    + rewrite lookup_insert_ne in Hp by done.
      destruct (Hh h Hp) as (id & Hid & Hhash).
      exists id. rewrite lookup_insert_ne by lia. split; [lia|done].
  - (* verifyDisasterEvent *)
    destruct (Hh h Hp) as (id & Hid & Hhash).
    exists id. split; [done|]. by rewrite verified_same_hash.
Qed.

Lemma more_invariants_deployed deployer me bal :
  unset_ok (constructor deployer me bal) /\
  references_ok (constructor deployer me bal) /\
  lists_ok (constructor deployer me bal) /\
  log_ok (constructor deployer me bal) /\
  hashes_ok (constructor deployer me bal).
Proof.
  split_and!.
  - by split_and!.
  - split; simpl; intros id Hid; lia.
  - by split.
  - split; [done|]. simpl. lia.
  - intros h Hp. discriminate.
Qed.

Lemma more_invariants_reachable s :
  reachable s ->
  unset_ok s /\ references_ok s /\ lists_ok s /\ log_ok s /\ hashes_ok s.
Proof.
  induction 1 as [deployer me bal|s env c Hs (Hu & Hr & Hl & Hg & Hh) Hwf].
  - apply more_invariants_deployed.
  - split_and!.
    + by apply unset_ok_step.
    + by apply references_ok_step.
    + by apply lists_ok_step.
    + by apply log_ok_step.
    + by apply hashes_ok_step.
Qed.

(** ** Granting and revoking authorization *)

(** X1: the owner grants an account the official role and the account is
    authorized; the owner then revokes it and, unless the account is the
    owner, every function that requires authorization rejects the account
    with "Not authorized" from the next call on. No other account's role
    changes on the way. *)
Theorem official_grant_and_revoke (env : Env) (a : address) (s : State) :
  msg_sender env = _owner s ->
  fst (execute env (Call_addAuthorizedOfficial a) s) = Success /\
  isAuthorized (snd (execute env (Call_addAuthorizedOfficial a) s)) a = true /\
  fst (execute env (Call_removeAuthorizedOfficial a)
         (snd (execute env (Call_addAuthorizedOfficial a) s))) = Success /\
  (a <> _owner s -> forall env' c,
     msg_sender env' = a -> requiresAuthorization c = true ->
     execute env' c
       (snd (execute env (Call_removeAuthorizedOfficial a)
          (snd (execute env (Call_addAuthorizedOfficial a) s))))
     = (Reverted NotAuthorized,
        snd (execute env (Call_removeAuthorizedOfficial a)
          (snd (execute env (Call_addAuthorizedOfficial a) s))))) /\
  (forall b, b <> a ->
     isOfficial (snd (execute env (Call_removeAuthorizedOfficial a)
          (snd (execute env (Call_addAuthorizedOfficial a) s)))) b
     = isOfficial s b).
Proof.
  intros Howner.
  assert ((_owner s =? msg_sender env) = true) as Hown
    by (apply N.eqb_eq; congruence).
  unfold_call. split_tests. split_and!; try reflexivity.
  - rewrite ?lookup_insert_eq. simpl. apply orb_true_r.
  - intros Hne env' c Hsender Hpriv.
    assert ((msg_sender env' =? _owner s) = false) as Hno
      by (apply N.eqb_neq; congruence).
    destruct c; try discriminate; unfold_call; simpl_state;
      rewrite ?Hsender in *; rewrite ?Hno, ?lookup_insert_eq; reflexivity.
  - intros b Hb. rewrite !lookup_insert_ne by done. reflexivity.
Qed.

Lemma official_grant_and_revoke_witness :
  fst (execute deployer_env (Call_addAuthorizedOfficial 2) deployed) = Success /\
  isAuthorized (snd (execute deployer_env (Call_addAuthorizedOfficial 2) deployed)) 2
    = true /\
  fst (execute deployer_env (Call_removeAuthorizedOfficial 2)
         (snd (execute deployer_env (Call_addAuthorizedOfficial 2) deployed))) = Success.
Proof.
  destruct (official_grant_and_revoke deployer_env 2 deployed)
    as (Hgrant & Hauth & Hrevoke & _).
  - reflexivity.
  - by split_and!.
Defined.

(** ** Who may call what *)

(** X2: who is told "Not authorized". A function that requires
    authorization rejects a caller who is neither the owner nor an official
    with that message, and nothing changes. Conversely a call is rejected
    with that message only in this case, or in one case that lies outside
    the contract: a distribution by an authorized caller to a recipient
    that refuses ether with this very message as its revert data, which the
    transfer forwards. So for every function but [distributeFund] the
    message is seen exactly when the function requires authorization and
    the caller has none; in particular the owner never sees it there,
    whatever the officials mapping holds. *)
Theorem not_authorized_iff (env : Env) (c : Call) (s : State) :
  (requiresAuthorization c = true -> isAuthorized s (msg_sender env) = false ->
     execute env c s = (Reverted NotAuthorized, s)) /\
  (forall r, fst (execute env c s) = Reverted r -> message r = "Not authorized" ->
     (requiresAuthorization c = true /\ isAuthorized s (msg_sender env) = false /\
      r = NotAuthorized) \/
     (exists id recipient amount,
        c = Call_distributeFund id recipient amount /\
        isAuthorized s (msg_sender env) = true /\
        canReceive env recipient = false /\
        revertData env recipient = "Not authorized" /\
        r = TransferFailed "Not authorized")) /\
  ((forall id recipient amount, c <> Call_distributeFund id recipient amount) ->
     ((exists r, fst (execute env c s) = Reverted r /\ message r = "Not authorized")
        <-> requiresAuthorization c = true /\ isAuthorized s (msg_sender env) = false)).
Proof.
  assert (requiresAuthorization c = true -> isAuthorized s (msg_sender env) = false ->
          execute env c s = (Reverted NotAuthorized, s)) as Hrej.
  { intros Hkind Hauth.
    destruct c; try discriminate; unfold_call; by split_tests. }
  assert (forall r, fst (execute env c s) = Reverted r ->
            message r = "Not authorized" ->
            (requiresAuthorization c = true /\
             isAuthorized s (msg_sender env) = false /\ r = NotAuthorized) \/
            (exists id recipient amount,
               c = Call_distributeFund id recipient amount /\
               isAuthorized s (msg_sender env) = true /\
               canReceive env recipient = false /\
               revertData env recipient = "Not authorized" /\
               r = TransferFailed "Not authorized")) as Honly.
  { intros r.
    destruct c; unfold_call; split_tests; intros H Hm;
      inversion H; subst; cbn [message] in Hm; try discriminate;
      first [ left; by split_and!
            | right; eexists _, _, _; split_and!;
              [reflexivity|done|done|done|by rewrite Hm] ]. }
  split_and!; [exact Hrej|exact Honly|].
  intros Hother. split.
  - intros (r & Hr & Hm).
    destruct (Honly r Hr Hm) as [(Hkind & Hauth & _)|(id & to & amount & Hc & _)].
    + by split.
    + by destruct (Hother id to amount).
  - intros [Hkind Hauth]. exists NotAuthorized.
    rewrite (Hrej Hkind Hauth). by split.
Qed.

(** A stranger is rejected by two of the guarded functions; the owner is
    not told "Not authorized" even after the owner's own official role has
    been revoked (the deployer starts with both); and the owner is told so
    by a distribution whose recipient reverts with that message. *)
Lemma not_authorized_iff_witness :
  execute stranger_env (Call_createAndApproveFund 1 100000) verified
    = (Reverted NotAuthorized, verified) /\
  execute stranger_env (Call_distributeFund 1 relief_agency 1) partly_distributed
    = (Reverted NotAuthorized, partly_distributed) /\
  ~ (exists r,
       fst (execute deployer_env (Call_verifyDisasterEvent 1)
              (snd (execute deployer_env (Call_removeAuthorizedOfficial 1) reported)))
         = Reverted r /\ message r = "Not authorized") /\
  fst (execute mimicking_env (Call_distributeFund 1 relief_agency 1000)
         partly_distributed)
    = Reverted (TransferFailed "Not authorized") /\
  message (TransferFailed "Not authorized") = message NotAuthorized.
Proof.
  split_and!.
  - destruct (not_authorized_iff stranger_env (Call_createAndApproveFund 1 100000)
       verified) as [Hrej _].
    apply Hrej; reflexivity.
  - destruct (not_authorized_iff stranger_env
       (Call_distributeFund 1 relief_agency 1) partly_distributed) as [Hrej _].
    apply Hrej; reflexivity.
  - destruct (not_authorized_iff deployer_env (Call_verifyDisasterEvent 1)
       (snd (execute deployer_env (Call_removeAuthorizedOfficial 1) reported)))
      as (_ & _ & Hiff).
    intros Htold. apply Hiff in Htold; [|discriminate].
    destruct Htold as [_ Hauth]. vm_compute in Hauth. discriminate.
  - vm_compute. reflexivity.
  - reflexivity.
Defined.

Lemma privileges_step env c s :
  msg_sender env <> _owner s ->
  _owner (snd (execute env c s)) = _owner s /\
  authorizedOfficials (snd (execute env c s)) = authorizedOfficials s.
Proof.
  intros Hne. apply N.eqb_neq in Hne. rewrite N.eqb_sym in Hne.
  destruct c; unfold_call; split_tests; by split.
Qed.

(** X3: only the owner changes who is privileged. Over any sequence of
    transactions none of which is sent by the owner, the owner and the
    officials mapping stay as they are, so every account is authorized
    after the sequence exactly if it was before. *)
Theorem privileges_change_only_by_owner (txs : list (Env * Call)) (s : State) :
  Forall (fun t => msg_sender (fst t) <> _owner s) txs ->
  _owner (run txs s) = _owner s /\
  authorizedOfficials (run txs s) = authorizedOfficials s /\
  (forall a, isAuthorized (run txs s) a = isAuthorized s a).
Proof.
  revert s. induction txs as [|[env c] rest IH]; intros s Hall; simpl.
  - by split_and!.
  - inversion Hall as [|t ts Hhead Htail]; subst. simpl in Hhead.
    destruct (privileges_step env c s Hhead) as [Hown Hoff].
    destruct (IH (snd (execute env c s))) as (Hown' & Hoff' & _).
    { by rewrite Hown. }
    assert (_owner (run rest (snd (execute env c s))) = _owner s) as H1 by congruence.
    assert (authorizedOfficials (run rest (snd (execute env c s)))
            = authorizedOfficials s) as H2 by congruence.
    split_and!; try done.
    intros a. unfold isAuthorized, isOfficial. by rewrite H1, H2.
Qed.

Lemma privileges_change_only_by_owner_witness :
  _owner (run [(stranger_env, Call_addAuthorizedOfficial 9);
               (stranger_env, Call_transferOwnership 9);
               (stranger_env, Call_receive 5)] deployed) = _owner deployed /\
  authorizedOfficials (run [(stranger_env, Call_addAuthorizedOfficial 9);
               (stranger_env, Call_transferOwnership 9);
               (stranger_env, Call_receive 5)] deployed)
    = authorizedOfficials deployed.
Proof.
  destruct (privileges_change_only_by_owner
              [(stranger_env, Call_addAuthorizedOfficial 9);
               (stranger_env, Call_transferOwnership 9);
               (stranger_env, Call_receive 5)] deployed) as (Hown & Hoff & _).
  - repeat constructor; simpl; discriminate.
  - by split.
Defined.

(** ** The id arrays and the read accessors *)

Lemma elem_of_idsUpTo n id : In id (idsUpTo n) <-> 0 < id <= n.
Proof.
  unfold idsUpTo. rewrite in_map_iff. split.
  - intros (k & <- & Hk). apply in_seq in Hk. lia.
  - intros Hid. exists (N.to_nat id). split; [apply N2Nat.id|].
    apply in_seq. lia.
Qed.

Lemma NoDup_idsUpTo n : NoDup (idsUpTo n).
Proof.
  induction n as [|n IH] using N.peano_ind; [constructor|].
  rewrite <- N.add_1_r, idsUpTo_succ. apply NoDup_app. split_and!.
  - exact IH.
  - intros x Hx Hlast. apply list_elem_of_In, elem_of_idsUpTo in Hx.
    apply list_elem_of_singleton in Hlast. lia.
  - apply NoDup_singleton.
Qed.

(** X4: in every reachable state the two id arrays list exactly the ids
    handed out so far, in increasing order and without repetition:
    [getAllEventIds] is 1, ..., eventCounter and [getAllTransactionIds] is
    1, ..., transactionCounter. *)
Theorem id_lists_enumerate (s : State) :
  reachable s ->
  getAllEventIds s = idsUpTo (eventCounter s) /\
  getAllTransactionIds s = idsUpTo (transactionCounter s) /\
  length (getAllEventIds s) = N.to_nat (eventCounter s) /\
  length (getAllTransactionIds s) = N.to_nat (transactionCounter s) /\
  NoDup (getAllEventIds s) /\ NoDup (getAllTransactionIds s).
Proof.
  intros Hreach.
  destruct (more_invariants_reachable s Hreach) as (_ & _ & [He Ht] & _).
  unfold getAllEventIds, getAllTransactionIds. rewrite He, Ht.
  split_and!; try reflexivity; try apply NoDup_idsUpTo;
    unfold idsUpTo; by rewrite length_map, length_seq.
Qed.

Lemma id_lists_enumerate_witness :
  getAllEventIds fully_distributed = idsUpTo (eventCounter fully_distributed) /\
  getAllTransactionIds fully_distributed
    = idsUpTo (transactionCounter fully_distributed).
Proof.
  destruct (id_lists_enumerate fully_distributed reachable_fully_distributed)
    as (He & Ht & _).
  by split.
Defined.

(** X5: in every reachable state the ids an id array lists are exactly the
    ids its read accessor answers for, and the record it answers with is
    the one stored under that id, carrying that id; for any other id, 0
    included, the accessor reverts. *)
Theorem listed_ids_are_fetchable (s : State) :
  reachable s ->
  (forall id, In id (getAllEventIds s) <->
              exists e, getDisasterEvent id s = Returns e) /\
  (forall id e, getDisasterEvent id s = Returns e ->
                e = eventAt s id /\ ev_eventId e = id) /\
  (forall id, ~ In id (getAllEventIds s) ->
              getDisasterEvent id s = Reverts "Event does not exist") /\
  (forall id, In id (getAllTransactionIds s) <->
              exists t, getFundTransaction id s = Returns t) /\
  (forall id t, getFundTransaction id s = Returns t ->
                t = transactionAt s id /\ tx_transactionId t = id) /\
  (forall id, ~ In id (getAllTransactionIds s) ->
              getFundTransaction id s = Reverts "Invalid transaction").
Proof.
  intros Hreach.
  destruct (more_invariants_reachable s Hreach) as (_ & [_ Htx] & [He Ht] & _).
  destruct (events_ok_reachable s Hreach) as [Hev _].
  unfold getAllEventIds, getAllTransactionIds. rewrite He, Ht.
  unfold getDisasterEvent, getFundTransaction, view, eventExists, bind, read, require.
  split_and!.
  - intros id. rewrite elem_of_idsUpTo. split.
    + intros Hid. rewrite (in_range_true _ _ Hid). eauto.
    + intros [e Hret]. destruct ((0 <? id) && (id <=? eventCounter s)) eqn:E;
        [|discriminate]. bool_facts. lia.
  - intros id e Hret. destruct ((0 <? id) && (id <=? eventCounter s)) eqn:E;
      [|discriminate]. inversion Hret; subst. split; [done|].
    bool_facts. destruct (Hev id) as (e & Hl & Hid & _); [lia|].
    unfold eventAt. by rewrite Hl.
  - intros id Hid. rewrite elem_of_idsUpTo in Hid.
    by rewrite (in_range_false _ _ Hid).
  - intros id. rewrite elem_of_idsUpTo. split.
    + intros Hid. rewrite (in_range_true _ _ Hid). eauto.
    + intros [e Hret]. destruct ((0 <? id) && (id <=? transactionCounter s)) eqn:E;
        [|discriminate]. bool_facts. lia.
  - intros id t Hret. destruct ((0 <? id) && (id <=? transactionCounter s)) eqn:E;
      [|discriminate]. inversion Hret; subst. split; [done|].
    bool_facts. apply Htx. lia.
  - intros id Hid. rewrite elem_of_idsUpTo in Hid.
    by rewrite (in_range_false _ _ Hid).
Qed.

Lemma listed_ids_are_fetchable_witness :
  (In 1 (getAllEventIds fully_distributed) <->
   exists e, getDisasterEvent 1 fully_distributed = Returns e) /\
  getDisasterEvent 2 fully_distributed = Reverts "Event does not exist".
Proof.
  destruct (listed_ids_are_fetchable fully_distributed reachable_fully_distributed)
    as (Hlisted & _ & Hmissing & _).
  split; [apply Hlisted|]. apply Hmissing.
  assert (getAllEventIds fully_distributed = [1]) as -> by (vm_compute; reflexivity).
  intros [H|[]]. discriminate.
Defined.

(** X6: in every reachable state references resolve. A fund pool that
    [getDisasterFund] returns carries the requested id and refers to an
    event that [getDisasterEvent] returns as verified; a donation that
    [getFundTransaction] returns refers to such an event too, has a
    positive amount, status PENDING and the verified flag set. For an id
    that was never handed out [getDisasterFund] reverts. *)
Theorem references_resolve (s : State) :
  reachable s ->
  (forall id f, getDisasterFund id s = Returns f ->
     fd_fundId f = id /\
     exists e, getDisasterEvent (fd_eventId f) s = Returns e /\
               ev_isVerified e = true) /\
  (forall id t, getFundTransaction id s = Returns t ->
     (exists e, getDisasterEvent (tx_eventId t) s = Returns e /\
                ev_isVerified e = true) /\
     0 < tx_amount t /\ tx_status t = PENDING /\ tx_isBlockchainVerified t = true) /\
  (forall id, ~ (0 < id <= fundCounter s) ->
     getDisasterFund id s = Reverts "Fund does not exist").
Proof.
  intros Hreach.
  destruct (more_invariants_reachable s Hreach) as (_ & [Hfd Htx] & _).
  unfold getDisasterFund, getDisasterEvent, getFundTransaction, view,
    eventExists, fundExists, bind, read, require.
  split_and!.
  - intros id f Hret. destruct ((0 <? id) && (id <=? fundCounter s)) eqn:E;
      [|discriminate]. inversion Hret; subst. bool_facts.
    destruct (Hfd id) as (Hid & Hev & Hver); [lia|]. split; [done|].
    rewrite (in_range_true _ _ Hev). eauto.
  - intros id t Hret. destruct ((0 <? id) && (id <=? transactionCounter s)) eqn:E;
      [|discriminate]. inversion Hret; subst. bool_facts.
    destruct (Htx id) as (Hid & Hev & Hver & Hpos & Hst & Hflag); [lia|].
    split_and!; try done. rewrite (in_range_true _ _ Hev). eauto.
  - intros id Hid. by rewrite (in_range_false _ _ Hid).
Qed.

Lemma references_resolve_witness :
  fd_fundId (fundAt fully_distributed 1) = 1 /\
  exists e,
    getDisasterEvent (fd_eventId (fundAt fully_distributed 1)) fully_distributed
      = Returns e /\
    ev_isVerified e = true.
Proof.
  destruct (references_resolve fully_distributed reachable_fully_distributed)
    as (Hfunds & _).
  apply (Hfunds 1 (fundAt fully_distributed 1)).
  vm_compute. reflexivity.
Defined.

(** ** Reporting, verifying and reading back *)

(** X7: what is reported can be read back. When [createDisasterEvent]
    returns an id, the id is the old counter plus one, it is appended to
    the id array, and [getDisasterEvent] at that id returns the event as
    submitted, with the level derived from the score, the caller as
    reporter and the verification flag unset; after a verification by an
    authorized caller it returns the same event with the flag set. *)
Theorem reported_event_reads_back (env env2 : Env) (t : DisasterType)
    (loc hash : string) (score affected infra area : uint256)
    (s s' : State) (id : uint256) :
  createDisasterEvent env t loc hash score affected infra area s = Ok id s' ->
  id = eventCounter s + 1 /\
  getAllEventIds s' = (getAllEventIds s ++ [id])%list /\
  getDisasterEvent id s'
    = Returns (mkDisasterEvent id t loc (block_timestamp env) hash score
                 (getSeverityLevel score) (msg_sender env) false affected infra area) /\
  (isAuthorized s' (msg_sender env2) = true ->
   getDisasterEvent id (snd (execute env2 (Call_verifyDisasterEvent id) s'))
     = Returns (mkDisasterEvent id t loc (block_timestamp env) hash score
                  (getSeverityLevel score) (msg_sender env) true affected infra area)).
Proof.
  unfold createDisasterEvent, onlyAuthorized, emit, checked_add, require, read,
    write, bind, ret.
  unfold isAuthorized, isOfficial, isProcessed.
  split_tests; try discriminate. intros Hret. inversion Hret; subst. clear Hret.
  bool_facts.
  assert ((0 <? eventCounter s + 1) && (eventCounter s + 1 <=? eventCounter s + 1) = true)
    as Hin by (apply in_range_true; lia).
  split_and!; try reflexivity.
  - unfold getDisasterEvent, view, eventExists, bind, read, require, eventAt.
    by split_tests.
  - intros Hauth.
    unfold getDisasterEvent, view. unfold_call. simpl_state.
    split_tests; try reflexivity; discriminate.
Qed.

Lemma reported_event_reads_back_witness :
  getDisasterEvent 1
    (snd (execute deployer_env
       (Call_createDisasterEvent FLOOD "Kerala" "0xabc" 50 10000 75 50) deployed))
  = Returns (mkDisasterEvent 1 FLOOD "Kerala" (block_timestamp deployer_env) "0xabc" 50
               (getSeverityLevel 50) (msg_sender deployer_env) false 10000 75 50).
Proof.
  destruct (reported_event_reads_back deployer_env deployer_env FLOOD "Kerala" "0xabc"
              50 10000 75 50 deployed
              (snd (execute deployer_env
                 (Call_createDisasterEvent FLOOD "Kerala" "0xabc" 50 10000 75 50)
                 deployed)) 1) as (_ & _ & Hread & _).
  - vm_compute. reflexivity.
  - exact Hread.
Defined.

(** ** Custody of ether *)

(** X8: the balance moves only with ether. A successful donation or plain
    receipt raises it by the ether sent; a successful distribution lowers
    it by the amount, which the balance covers, unless the recipient is the
    contract itself, in which case it stays; every other call, and every
    rejected call, leaves it as it is. *)
Theorem balance_change (env : Env) (c : Call) (s : State) :
  (fst (execute env c s) = Success ->
   match c with
   | Call_donateToEvent v _ _ | Call_receive v =>
       getContractBalance (snd (execute env c s)) = getContractBalance s + v
   | Call_distributeFund _ recipient amount =>
       amount <= getContractBalance s /\
       getContractBalance (snd (execute env c s))
       = if recipient =? self s then getContractBalance s
         else getContractBalance s - amount
   | _ => getContractBalance (snd (execute env c s)) = getContractBalance s
   end) /\
  (fst (execute env c s) <> Success ->
   getContractBalance (snd (execute env c s)) = getContractBalance s).
Proof.
  unfold getContractBalance. split.
  - destruct c; unfold_call; split_tests; intros Hok; try discriminate;
      bool_facts; first [reflexivity | split; [assumption | reflexivity]].
  - destruct c; unfold_call; split_tests; intros Hno; try reflexivity;
      by destruct Hno.
Qed.

Lemma balance_change_witness :
  getContractBalance
    (snd (execute stranger_env (Call_donateToEvent 5000 1 "food") verified))
  = getContractBalance verified + 5000.
Proof.
  destruct (balance_change stranger_env (Call_donateToEvent 5000 1 "food") verified)
    as [Hok _].
  apply Hok. vm_compute. reflexivity.
Defined.

(** ** What the log accounts for *)

Lemma eventId_after_update (m : gmap N DisasterFund) (k f : N) (g : DisasterFund) :
  fd_eventId g = fd_eventId (default zeroFund (m !! k)) ->
  fd_eventId (default zeroFund (<[k := g]> m !! f))
    = fd_eventId (default zeroFund (m !! f)).
Proof.
  intros Hg. destruct (decide (k = f)) as [->|Hne].
  - by rewrite lookup_insert_eq.
  - by rewrite lookup_insert_ne.
Qed.

Lemma distributions_ok_step env c s :
  distributions_ok s -> distributions_ok (snd (execute env c s)).
Proof.
  intros Hd.
  destruct c; unfold_call; split_tests; try assumption; bool_facts;
    unfold distributions_ok, fundAt; simpl_state; intros f e a Hin;
    apply in_app_iff in Hin; destruct Hin as [Hin|[Hin|[]]];
    try discriminate Hin.
  all: try (destruct (Hd f e a Hin) as [Hf He]; unfold fundAt in He).
  all: try (inversion Hin; subst; clear Hin).
  all: try (split; [lia|]).
  all: try assumption.
  all: try (rewrite lookup_insert_ne by lia; assumption).
  all: rewrite ?eventId_after_update by (simpl_state; reflexivity);
    first [assumption | reflexivity].
Qed.

Lemma distributions_ok_reachable s : reachable s -> distributions_ok s.
Proof.
  induction 1 as [deployer me bal|s env c Hs IH Hwf].
  - intros f e a [Hin|[]]. discriminate Hin.
  - by apply distributions_ok_step.
Qed.

Lemma logged_distribution_counted f e a log :
  In (FundDistributed f e a) log -> a <= distributedInLog f log.
Proof.
  induction log as [|x log IH]; intros Hin; [destruct Hin|].
  destruct Hin as [->|Hin].
  - simpl. rewrite N.eqb_refl. lia.
  - apply IH in Hin. destruct x; simpl; lia.
Qed.

(** X9: the log is a complete account of the distributions. In every
    reachable state the distributed amount of a fund pool is the sum of the
    amounts of the [FundDistributed] notifications emitted for its id, and
    every [FundDistributed] notification in the log, whatever its amount,
    names an id that holds a pool, carries the event that pool refers to,
    and an amount within what the pool has distributed; so no such
    notification exists for an id that holds no pool. *)
Theorem distributed_matches_log (s : State) :
  reachable s ->
  (forall id, fd_distributedAmount (fundAt s id) = distributedInLog id (emitted s)) /\
  (forall f e a, In (FundDistributed f e a) (emitted s) ->
     0 < f <= fundCounter s /\
     e = fd_eventId (fundAt s f) /\
     a <= fd_distributedAmount (fundAt s f)) /\
  (forall id e a, ~ (0 < id <= fundCounter s) ->
     ~ In (FundDistributed id e a) (emitted s)).
Proof.
  intros Hreach.
  destruct (more_invariants_reachable s Hreach) as (_ & _ & _ & [Hlog _] & _).
  pose proof (distributions_ok_reachable s Hreach) as Hd.
  split_and!.
  - exact Hlog.
  - intros f e a Hin. destruct (Hd f e a Hin) as [Hf He].
    split_and!; [lia|lia|exact He|].
    rewrite Hlog. by apply logged_distribution_counted with e.
  - intros id e a Hout Hin. by destruct (Hd id e a Hin).
Qed.

(** The two distributions of the sample history, and no notification for
    pool 2, which does not exist. *)
Lemma distributed_matches_log_witness :
  fd_distributedAmount (fundAt fully_distributed 1)
    = distributedInLog 1 (emitted fully_distributed) /\
  (0 < 1 <= fundCounter fully_distributed /\
   1 = fd_eventId (fundAt fully_distributed 1) /\
   40000 <= fd_distributedAmount (fundAt fully_distributed 1)) /\
  ~ In (FundDistributed 2 1 0) (emitted fully_distributed).
Proof.
  destruct (distributed_matches_log fully_distributed reachable_fully_distributed)
    as (Hsum & Hin & Hout).
  split; [|split].
  - apply Hsum.
  - apply (Hin 1 1 40000). vm_compute. tauto.
  - apply (Hout 2 1 0).
    assert (fundCounter fully_distributed = 1) as -> by reflexivity. lia.
Defined.

(** X10: recorded donations are covered. In every reachable state the sum
    of the amounts of the [FundDonated] notifications is at most the
    contract's balance plus the sum of the amounts of the [FundDistributed]
    notifications: the ledger has not paid out, nor lost, ether it recorded
    as donated. *)
Theorem donations_are_covered (s : State) :
  reachable s ->
  donatedInLog (emitted s) <= getContractBalance s + paidOutInLog (emitted s).
Proof.
  intros Hreach.
  by destruct (more_invariants_reachable s Hreach) as (_ & _ & _ & [_ Hcov] & _).
Qed.

Lemma donations_are_covered_witness :
  donatedInLog (emitted fully_distributed)
    <= getContractBalance fully_distributed + paidOutInLog (emitted fully_distributed).
Proof. apply (donations_are_covered fully_distributed reachable_fully_distributed). Defined.

(** ** When a distribution goes through *)

(** X11: in a reachable state a distribution succeeds exactly when the
    caller is authorized, the pool exists and is APPROVED, the amount fits
    under the pool's total, the contract's balance covers it and the
    recipient accepts it. When everything but the balance holds, the call
    is rejected with "Insufficient contract balance", a balance error
    distinct from the pool's cap. *)
Theorem distributeFund_success_iff (env : Env) (id : uint256) (recipient : address)
    (amount : uint256) (s : State) :
  reachable s ->
  (fst (execute env (Call_distributeFund id recipient amount) s) = Success <->
   isAuthorized s (msg_sender env) = true /\
   0 < id <= fundCounter s /\
   fd_status (fundAt s id) = APPROVED /\
   fd_distributedAmount (fundAt s id) + amount <= fd_totalAmount (fundAt s id) /\
   amount <= getContractBalance s /\
   canReceive env recipient = true) /\
  (isAuthorized s (msg_sender env) = true -> 0 < id <= fundCounter s ->
   fd_status (fundAt s id) = APPROVED ->
   fd_distributedAmount (fundAt s id) + amount <= fd_totalAmount (fundAt s id) ->
   getContractBalance s < amount ->
   execute env (Call_distributeFund id recipient amount) s
   = (Reverted InsufficientContractBalance, s)) /\
  errorKind InsufficientContractBalance = Some InsufficientBalanceError.
Proof.
  intros Hreach. unfold getContractBalance. split; [|split; [|reflexivity]].
  - split.
    + unfold_call. split_tests; intros Hok; try discriminate; bool_facts;
        by split_and!.
    + intros (Hauth & Hin & Happr & Hcap & Hbal & Hacc).
      by apply distributeFund_within_cap.
  - intros Hauth Hin Happr Hcap Hbal.
    destruct (funds_ok_reachable s Hreach) as [Hopen Hfunds].
    destruct (Hfunds id Hin) as (f & Hlook & Hbound & _).
    assert (fundAt s id = f) as Hf by (unfold fundAt; by rewrite Hlook).
    rewrite <- Hf in Hbound. clear Hf Hlook Hfunds f.
    apply in_range_true in Hin. apply FundStatus_eqb_eq in Happr.
    assert ((fd_distributedAmount (fundAt s id) + amount <=? MAX_UINT256) = true)
      as Hfit by (apply N.leb_le; lia).
    apply N.leb_le in Hcap. apply N.leb_gt in Hbal.
    unfold_call. by split_tests.
Qed.

Lemma distributeFund_success_iff_witness :
  fst (execute deployer_env (Call_distributeFund 1 relief_agency 40000) partly_distributed)
    = Success /\
  execute deployer_env (Call_distributeFund 1 relief_agency 10) (run (firstn 3 sample_history) deployed)
    = (Reverted InsufficientContractBalance, run (firstn 3 sample_history) deployed).
Proof.
  split.
  - destruct (distributeFund_success_iff deployer_env 1 relief_agency 40000 partly_distributed
                reachable_partly_distributed) as ([_ Hsuff] & _).
    apply Hsuff. vm_compute. split_and!; try reflexivity; discriminate.
  - destruct (distributeFund_success_iff deployer_env 1 relief_agency 10
                (run (firstn 3 sample_history) deployed)) as (_ & Hbal & _).
    + apply reachable_run; [reflexivity|]. apply reachable_deployed.
    + apply Hbal; vm_compute; first [reflexivity | split; [reflexivity|discriminate]
                                     | discriminate].
Defined.

(** ** The duplicate guard has no false positives *)

(** X12: in every reachable state a fingerprint is marked processed
    exactly when some stored event carries it. So an authorized report with
    a score of at most 100 succeeds exactly when no stored event carries
    its fingerprint (the event counter being below its maximum). *)
Theorem processed_iff_stored (s : State) (hash : string) :
  reachable s ->
  (isProcessed s hash = true <->
   exists id, 0 < id <= eventCounter s /\ ev_imageHash (eventAt s id) = hash) /\
  (forall env t loc score affected infra area,
     isAuthorized s (msg_sender env) = true -> score <= 100 ->
     eventCounter s < MAX_UINT256 ->
     (fst (execute env (Call_createDisasterEvent t loc hash score affected infra area) s)
        = Success
      <-> forall id, 0 < id <= eventCounter s -> ev_imageHash (eventAt s id) <> hash)).
Proof.
  intros Hreach.
  destruct (more_invariants_reachable s Hreach) as (_ & _ & _ & _ & Hhash).
  destruct (events_ok_reachable s Hreach) as [Hev _].
  assert (isProcessed s hash = true <->
          exists id, 0 < id <= eventCounter s /\ ev_imageHash (eventAt s id) = hash)
    as Hiff.
  { split; [apply Hhash|]. intros (id & Hid & Heq).
    destruct (Hev id Hid) as (e & Hlook & _ & Hp & _).
    unfold eventAt in Heq. rewrite Hlook in Heq. simpl in Heq. subst.
    unfold isProcessed. by rewrite Hp. }
  split; [exact Hiff|].
  intros env t loc score affected infra area Hauth Hscore Hroom.
  assert ((0 <=? score) && (score <=? 100) = true) as Hvalid.
  { apply andb_true_intro. split; apply N.leb_le; lia. }
  assert ((eventCounter s + 1 <=? MAX_UINT256) = true) as Hfit
    by (apply N.leb_le; lia).
  destruct (isProcessed s hash) eqn:Hp.
  - split.
    + unfold_call. split_tests. discriminate.
    + intros Hfresh. destruct (proj1 Hiff eq_refl) as (id & Hid & Heq).
      by destruct (Hfresh id Hid).
  - split.
    + intros _ id Hid Heq.
      assert (false = true) by (apply Hiff; eauto). discriminate.
    + intros _. unfold_call. by split_tests.
Qed.

Lemma processed_iff_stored_witness :
  isProcessed fully_distributed "0xabc" = true <->
  exists id, 0 < id <= eventCounter fully_distributed /\
             ev_imageHash (eventAt fully_distributed id) = "0xabc".
Proof.
  apply (processed_iff_stored fully_distributed "0xabc" reachable_fully_distributed).
Defined.

(** ** The life of an event record *)

(** X13: a stored event changes only by being verified, once. Over any
    sequence of transactions the event under an existing id is still
    returned by [getDisasterEvent], and it is the same record or the same
    record with the verification flag set; an event that is verified never
    changes again. *)
Theorem event_changes_only_by_verification (txs : list (Env * Call)) (s : State)
    (id : uint256) :
  0 < id <= eventCounter s ->
  getDisasterEvent id (run txs s) = Returns (eventAt (run txs s) id) /\
  (eventAt (run txs s) id = eventAt s id \/
   eventAt (run txs s) id = ev_set_isVerified true (eventAt s id)) /\
  (ev_isVerified (eventAt s id) = true -> eventAt (run txs s) id = eventAt s id).
Proof.
  intros Hid.
  destruct (event_run txs s id) as [Hsame Hmono]; [lia|].
  split_and!.
  - unfold getDisasterEvent, view, eventExists, bind, read, require.
    rewrite in_range_true by lia. reflexivity.
  - exact Hsame.
  - intros Hver. destruct Hsame as [Heq|Heq]; rewrite Heq; [done|].
    destruct (eventAt s id); simpl in *. by subst.
Qed.

Lemma event_changes_only_by_verification_witness :
  eventAt (run (skipn 2 sample_history) verified) 1 = eventAt verified 1.
Proof.
  destruct (event_changes_only_by_verification (skipn 2 sample_history) verified 1)
    as (_ & _ & Hfixed).
  - assert (eventCounter verified = 1) as -> by reflexivity. lia.
  - apply Hfixed. reflexivity.
Defined.

(** ** Ids are handed out once *)

Lemma counters_step env c s :
  eventCounter (snd (execute env c s))
    = eventCounter s
      + (if createsEvent c && succeeded (fst (execute env c s)) then 1 else 0) /\
  fundCounter (snd (execute env c s))
    = fundCounter s
      + (if createsFund c && succeeded (fst (execute env c s)) then 1 else 0) /\
  transactionCounter (snd (execute env c s))
    = transactionCounter s
      + (if createsTransaction c && succeeded (fst (execute env c s)) then 1 else 0).
Proof.
  destruct c; cbn [createsEvent createsFund createsTransaction andb];
    unfold_call; split_tests; cbn [succeeded] in *;
    split_and!; first [lia | congruence].
Qed.

(** X14: ids are handed out once and in order. Each counter grows by one
    with a successful call of its creating function and is untouched by
    every other call and by every rejected call; so over any sequence of
    transactions no counter decreases, and a record's id is never given to
    another record. *)
Theorem counters_count_creations (env : Env) (c : Call) (txs : list (Env * Call))
    (s : State) :
  (eventCounter (snd (execute env c s))
     = eventCounter s
       + (if createsEvent c && succeeded (fst (execute env c s)) then 1 else 0) /\
   fundCounter (snd (execute env c s))
     = fundCounter s
       + (if createsFund c && succeeded (fst (execute env c s)) then 1 else 0) /\
   transactionCounter (snd (execute env c s))
     = transactionCounter s
       + (if createsTransaction c && succeeded (fst (execute env c s)) then 1 else 0)) /\
  (eventCounter s <= eventCounter (run txs s) /\
   fundCounter s <= fundCounter (run txs s) /\
   transactionCounter s <= transactionCounter (run txs s)).
Proof.
  split; [apply counters_step|].
  revert s. induction txs as [|[env' c'] rest IH]; intros s; simpl.
  - split_and!; lia.
  - destruct (counters_step env' c' s) as (He & Hf & Ht).
    destruct (IH (snd (execute env' c' s))) as (He' & Hf' & Ht').
    split_and!; lia.
Qed.
